(** * The task service of [src/index.ts]: store, task API, HTTP and MCP adapters

    The program keeps a list of task records in one JSON file, re-reads the
    file at the start of every operation and rewrites it after every
    mutation.  This development embeds

    - the platform functions the program calls ([JSON.stringify] with a
      two-space gap, [JSON.parse], [Date.now], [Date.prototype.toISOString],
      the three [fs] calls and [console.error]),
    - the store helpers [loadTasks] and [saveTasks],
    - the five operations of [taskAPI],
    - the route handlers of [startHttpServer] and the tool-call handler of
      [startMCPServer],

    and proves the behavioural properties of the specification about them.

    Conventions.  A JavaScript string is a [string]: a sequence of code units
    in U+0000..U+00FF.  JavaScript's [undefined] in a place typed [string] is
    [None] of an [option string] (TypeScript's [as string] is erased at run
    time, so the MCP adapter can pass it on).  The file is seen as the text
    that [readFileSync(..., 'utf8')] returns. *)

From Stdlib Require Import String Ascii List ZArith NArith Lia Bool DecimalString DecimalZ.
Import ListNotations.
Open Scope string_scope.
Set Warnings "-register-all".

(* ================================================================== *)
(** * Data model *)

(** [interface Task].  [title] is declared [string]; at run time it is
    whatever the adapter handed to [createTask], which for the MCP adapter
    can be [undefined] ([None]). *)
Record Task := mkTask {
  id : string;
  title : option string;
  completed : bool;
  createdAt : string
}.

(* ================================================================== *)
(** * JSON text *)

Module Json.

(** The double quote and the backslash, by code. *)
Definition dquote : ascii := "034"%char.
Definition backslash : ascii := "092"%char.
Definition dq : string := String dquote "".

(** ** Printing: [JSON.stringify(v, null, 2)] on task records *)

Definition hex_digit (n : N) : ascii :=
  if (n <? 10)%N then ascii_of_N (48 + n) else ascii_of_N (87 + n).

(** One code unit inside a JSON string (QuoteJSONString): the quote and
    the backslash are escaped, the five short escapes are used, any other
    control character is written as a lower-case [\u00xx], everything else
    is copied. *)
Definition quote_char (c : ascii) : string :=
  let n := N_of_ascii c in
  if (n =? 34)%N then String backslash (String dquote "")
  else if (n =? 92)%N then String backslash (String backslash "")
  else if (n =? 8)%N then String backslash "b"
  else if (n =? 12)%N then String backslash "f"
  else if (n =? 10)%N then String backslash "n"
  else if (n =? 13)%N then String backslash "r"
  else if (n =? 9)%N then String backslash "t"
  else if (n <? 32)%N then
    String backslash
      (String "u" (String "0" (String "0"
        (String (hex_digit (n / 16)) (String (hex_digit (n mod 16)) "")))))
  else String c "".

Fixpoint quote_body (s : string) : string :=
  match s with
  | "" => ""
  | String c s' => quote_char c ++ quote_body s'
  end.

Definition quote (s : string) : string := dq ++ quote_body s ++ dq.

Definition newline : string := String "010"%char "".

Definition print_bool (b : bool) : string := if b then "true" else "false".

(** The members of a task object in the order the object literal of
    [createTask] lists them; a property whose value is [undefined] is left
    out by [JSON.stringify]. *)
Definition task_members (t : Task) : list string :=
  [quote "id" ++ ": " ++ quote (id t)]
  ++ match title t with
     | Some s => [quote "title" ++ ": " ++ quote s]
     | None => []
     end
  ++ [quote "completed" ++ ": " ++ print_bool (completed t);
      quote "createdAt" ++ ": " ++ quote (createdAt t)].

(** [join sep l]: the elements of [l] separated by [sep]. *)
Fixpoint join (sep : string) (l : list string) : string :=
  match l with
  | [] => ""
  | [x] => x
  | x :: l' => x ++ sep ++ join sep l'
  end.

(** SerializeJSONObject at indentation [ind] with gap of two spaces. *)
Definition stringify_task_at (ind : string) (t : Task) : string :=
  let inner := ind ++ "  " in
  "{" ++ newline ++ inner
      ++ join ("," ++ newline ++ inner) (task_members t)
      ++ newline ++ ind ++ "}".

(** [JSON.stringify(task, null, 2)]. *)
Definition stringify_task (t : Task) : string := stringify_task_at "" t.

(** [JSON.stringify(tasks, null, 2)] (SerializeJSONArray). *)
Definition stringify_tasks (ts : list Task) : string :=
  match ts with
  | [] => "[]"
  | _ =>
    "[" ++ newline ++ "  "
        ++ join ("," ++ newline ++ "  ") (map (stringify_task_at "  ") ts)
        ++ newline ++ "]"
  end.

(** ** Parsing: [JSON.parse] *)

(** A parsed JSON value.  A string is a list of code units, since an escape
    [\uXXXX] can denote any of them; a number keeps its source text (the
    program never looks at it). *)
Inductive json :=
| JNull
| JBool (b : bool)
| JNumber (lexeme : string)
| JString (s : list N)
| JArray (elts : list json)
| JObject (members : list (list N * json)).

(** The outcome of a parsing function: a value and the rest of the input,
    a [SyntaxError], or the recursion budget was used up. *)
Inductive presult (A : Type) :=
| Parsed (a : A) (rest : string)
| SyntaxError
| OutOfFuel.
Arguments Parsed {A} a rest.
Arguments SyntaxError {A}.
Arguments OutOfFuel {A}.

Definition is_ws (c : ascii) : bool :=
  let n := N_of_ascii c in
  ((n =? 32) || (n =? 9) || (n =? 10) || (n =? 13))%N.

Fixpoint skip_ws (s : string) : string :=
  match s with
  | String c s' => if is_ws c then skip_ws s' else s
  | "" => ""
  end.

Definition hex_value (c : ascii) : option N :=
  let n := N_of_ascii c in
  if ((48 <=? n) && (n <=? 57))%N then Some (n - 48)%N
  else if ((97 <=? n) && (n <=? 102))%N then Some (n - 87)%N
  else if ((65 <=? n) && (n <=? 70))%N then Some (n - 55)%N
  else None.

Definition hex4 (a b c d : ascii) : option N :=
  match hex_value a, hex_value b, hex_value c, hex_value d with
  | Some x, Some y, Some z, Some w => Some (((x * 16 + y) * 16 + z) * 16 + w)%N
  | _, _, _, _ => None
  end.

(** The code unit a short escape stands for. *)
Definition short_escape (c : ascii) : option N :=
  let n := N_of_ascii c in
  if (n =? 34)%N then Some 34%N
  else if (n =? 92)%N then Some 92%N
  else if (n =? 47)%N then Some 47%N
  else if (n =? 98)%N then Some 8%N
  else if (n =? 102)%N then Some 12%N
  else if (n =? 110)%N then Some 10%N
  else if (n =? 114)%N then Some 13%N
  else if (n =? 116)%N then Some 9%N
  else None.

Definition pcons (x : N) (r : presult (list N)) : presult (list N) :=
  match r with
  | Parsed l rest => Parsed (x :: l) rest
  | SyntaxError => SyntaxError
  | OutOfFuel => OutOfFuel
  end.

(** The characters of a string up to its closing quote; the input starts
    just after the opening quote. *)
Fixpoint parse_chars (s : string) : presult (list N) :=
  match s with
  | "" => SyntaxError
  | String c s' =>
    let n := N_of_ascii c in
    if (n =? 34)%N then Parsed [] s'
    else if (n =? 92)%N then
      match s' with
      | "" => SyntaxError
      | String e s'' =>
        if (N_of_ascii e =? 117)%N then
          match s'' with
          | String h1 (String h2 (String h3 (String h4 s3))) =>
            match hex4 h1 h2 h3 h4 with
            | Some u => pcons u (parse_chars s3)
            | None => SyntaxError
            end
          | _ => SyntaxError
          end
        else
          match short_escape e with
          | Some u => pcons u (parse_chars s'')
          | None => SyntaxError
          end
      end
    else if (n <? 32)%N then SyntaxError
    else pcons n (parse_chars s')
  end.

Definition is_digit (c : ascii) : bool :=
  let n := N_of_ascii c in ((48 <=? n) && (n <=? 57))%N.

(** The longest prefix of digits and what follows it. *)
Fixpoint take_digits (s : string) : string * string :=
  match s with
  | String c s' =>
    if is_digit c then let (d, r) := take_digits s' in (String c d, r)
    else ("", s)
  | "" => ("", "")
  end.

(** The integer part: a single [0], or a non-zero digit and more digits. *)
Definition parse_int_part (s : string) : option (string * string) :=
  match s with
  | String c s' =>
    if (N_of_ascii c =? 48)%N then Some (String c "", s')
    else if is_digit c then let (d, r) := take_digits s' in Some (String c d, r)
    else None
  | "" => None
  end.

(** An optional fraction: a dot and at least one digit. *)
Definition parse_frac (s : string) : option (string * string) :=
  match s with
  | String c s' =>
    if (N_of_ascii c =? 46)%N then
      match take_digits s' with
      | ("", _) => None
      | (d, r) => Some (String c d, r)
      end
    else Some ("", s)
  | "" => Some ("", "")
  end.

(** An optional exponent: [e] or [E], an optional sign, at least one digit. *)
Definition parse_exp (s : string) : option (string * string) :=
  match s with
  | String c s' =>
    if ((N_of_ascii c =? 101) || (N_of_ascii c =? 69))%N then
      let (sign, s'') :=
        match s' with
        | String g t =>
          if ((N_of_ascii g =? 43) || (N_of_ascii g =? 45))%N
          then (String g "", t) else ("", s')
        | "" => ("", s')
        end in
      match take_digits s'' with
      | ("", _) => None
      | (d, r) => Some (String c (sign ++ d), r)
      end
    else Some ("", s)
  | "" => Some ("", "")
  end.

Definition parse_unsigned (s : string) : option (string * string) :=
  match parse_int_part s with
  | None => None
  | Some (i, r1) =>
    match parse_frac r1 with
    | None => None
    | Some (f, r2) =>
      match parse_exp r2 with
      | None => None
      | Some (e, r3) => Some (i ++ f ++ e, r3)
      end
    end
  end.

(** A number, the input starting at its first character. *)
Definition parse_number (s : string) : presult json :=
  match s with
  | String c s' =>
    if (N_of_ascii c =? 45)%N then
      match parse_unsigned s' with
      | Some (l, r) => Parsed (JNumber (String c l)) r
      | None => SyntaxError
      end
    else
      match parse_unsigned s with
      | Some (l, r) => Parsed (JNumber l) r
      | None => SyntaxError
      end
  | "" => SyntaxError
  end.

(** [expect w s]: [s] without its prefix [w], if it has it. *)
Fixpoint expect (w s : string) : option string :=
  match w with
  | "" => Some s
  | String a w' =>
    match s with
    | String b s' => if Ascii.eqb a b then expect w' s' else None
    | "" => None
    end
  end.

Definition parse_word (w : string) (v : json) (s : string) : presult json :=
  match expect w s with
  | Some r => Parsed v r
  | None => SyntaxError
  end.

(** A value, the input starting at its first character (white space
    already skipped).  [parse_elements] and [parse_members] read what
    follows the first white space inside a non-empty array or object. *)
Fixpoint parse_value (fuel : nat) (s : string) : presult json :=
  match fuel with
  | O => OutOfFuel
  | S fuel' =>
    match s with
    | "" => SyntaxError
    | String c s' =>
      let n := N_of_ascii c in
      if (n =? 34)%N then
        match parse_chars s' with
        | Parsed l r => Parsed (JString l) r
        | SyntaxError => SyntaxError
        | OutOfFuel => OutOfFuel
        end
      else if (n =? 91)%N then
        match skip_ws s' with
        | String c1 r1 =>
          if (N_of_ascii c1 =? 93)%N then Parsed (JArray []) r1
          else
            match parse_elements fuel' (String c1 r1) with
            | Parsed l r => Parsed (JArray l) r
            | SyntaxError => SyntaxError
            | OutOfFuel => OutOfFuel
            end
        | "" => SyntaxError
        end
      else if (n =? 123)%N then
        match skip_ws s' with
        | String c1 r1 =>
          if (N_of_ascii c1 =? 125)%N then Parsed (JObject []) r1
          else
            match parse_members fuel' (String c1 r1) with
            | Parsed l r => Parsed (JObject l) r
            | SyntaxError => SyntaxError
            | OutOfFuel => OutOfFuel
            end
        | "" => SyntaxError
        end
      else if (n =? 116)%N then parse_word "true" (JBool true) s
      else if (n =? 102)%N then parse_word "false" (JBool false) s
      else if (n =? 110)%N then parse_word "null" JNull s
      else parse_number s
    end
  end

with parse_elements (fuel : nat) (s : string) : presult (list json) :=
  match fuel with
  | O => OutOfFuel
  | S fuel' =>
    match parse_value fuel' s with
    | Parsed v r =>
      match skip_ws r with
      | String c r1 =>
        if (N_of_ascii c =? 93)%N then Parsed [v] r1
        else if (N_of_ascii c =? 44)%N then
          match parse_elements fuel' (skip_ws r1) with
          | Parsed l r2 => Parsed (v :: l) r2
          | SyntaxError => SyntaxError
          | OutOfFuel => OutOfFuel
          end
        else SyntaxError
      | "" => SyntaxError
      end
    | SyntaxError => SyntaxError
    | OutOfFuel => OutOfFuel
    end
  end

with parse_members (fuel : nat) (s : string) : presult (list (list N * json)) :=
  match fuel with
  | O => OutOfFuel
  | S fuel' =>
    match s with
    | String c s' =>
      if (N_of_ascii c =? 34)%N then
        match parse_chars s' with
        | Parsed k r =>
          match skip_ws r with
          | String c1 r1 =>
            if (N_of_ascii c1 =? 58)%N then
              match parse_value fuel' (skip_ws r1) with
              | Parsed v r2 =>
                match skip_ws r2 with
                | String c2 r3 =>
                  if (N_of_ascii c2 =? 125)%N then Parsed [(k, v)] r3
                  else if (N_of_ascii c2 =? 44)%N then
                    match parse_members fuel' (skip_ws r3) with
                    | Parsed l r4 => Parsed ((k, v) :: l) r4
                    | SyntaxError => SyntaxError
                    | OutOfFuel => OutOfFuel
                    end
                  else SyntaxError
                | "" => SyntaxError
                end
              | SyntaxError => SyntaxError
              | OutOfFuel => OutOfFuel
              end
            else SyntaxError
          | "" => SyntaxError
          end
        | SyntaxError => SyntaxError
        | OutOfFuel => OutOfFuel
        end
      else SyntaxError
    | "" => SyntaxError
    end
  end.

(** [JSON.parse]: one value between optional white space and nothing
    else.  Every recursive call is made after at least one character was
    read off, or directly under a call that was, so twice the length of
    the text is budget enough (lemma [parse_never_out_of_fuel]). *)
Definition parse (s : string) : presult json :=
  match parse_value (2 * String.length s + 2) (skip_ws s) with
  | Parsed v r =>
    match skip_ws r with
    | "" => Parsed v ""
    | _ => SyntaxError
    end
  | SyntaxError => SyntaxError
  | OutOfFuel => OutOfFuel
  end.

End Json.

(* ================================================================== *)
(** * Numbers and dates *)

Module JsDate.

(** [Number.prototype.toString] on an integer: decimal digits, with a
    minus sign below zero. *)
Definition toString (z : Z) : string := NilZero.string_of_int (Z.to_int z).

(** [n] in decimal, padded on the left with zeros to [width] digits. *)
Fixpoint zeros (n : nat) : string :=
  match n with
  | O => ""
  | S n' => String "0" (zeros n')
  end.

Definition pad (width : nat) (n : Z) : string :=
  let d := toString n in
  zeros (width - String.length d) ++ d.

(** Year, month and day of the day number [day] (days since 1970-01-01)
    in the proleptic Gregorian calendar. *)
Definition civil_from_days (day : Z) : Z * Z * Z :=
  let z := (day + 719468)%Z in
  let era := (z / 146097)%Z in
  let doe := (z - era * 146097)%Z in
  let yoe := ((doe - doe / 1460 + doe / 36524 - doe / 146096) / 365)%Z in
  let doy := (doe - (365 * yoe + yoe / 4 - yoe / 100))%Z in
  let mp := ((5 * doy + 2) / 153)%Z in
  let d := (doy - (153 * mp + 2) / 5 + 1)%Z in
  let m := (if mp <? 10 then mp + 3 else mp - 9)%Z in
  let y := (yoe + era * 400 + (if m <=? 2 then 1 else 0))%Z in
  (y, m, d).

(** The year of an ISO date: four digits from 0 to 9999, otherwise a sign
    and six digits. *)
Definition iso_year (y : Z) : string :=
  if ((0 <=? y) && (y <=? 9999))%Z then pad 4 y
  else if (y <? 0)%Z then "-" ++ pad 6 (- y)
  else "+" ++ pad 6 y.

(** [Date.prototype.toISOString] of the date whose time value is [t]
    milliseconds since the epoch. *)
Definition toISOString (t : Z) : string :=
  let day := (t / 86400000)%Z in
  let ms := (t mod 86400000)%Z in
  let '(y, m, d) := civil_from_days day in
  iso_year y ++ "-" ++ pad 2 m ++ "-" ++ pad 2 d ++ "T"
    ++ pad 2 (ms / 3600000) ++ ":" ++ pad 2 ((ms / 60000) mod 60) ++ ":"
    ++ pad 2 ((ms / 1000) mod 60) ++ "." ++ pad 3 (ms mod 1000) ++ "Z".

End JsDate.

(* ================================================================== *)
(** * The world the program runs in *)

(** What the program can observe and change: the file [TASKS_FILE] ([None]
    when it does not exist), whether reading and writing it succeed (a
    failing call throws), the clock as the sequence of its future readings
    with the number of readings made so far, and the lines written by
    [console.error].  A failing write is one that throws before the file
    is touched (no permission, read-only file system); a write that fails
    half way and leaves a shortened file is not one of these worlds. *)
Record World := mkWorld {
  file : option string;
  can_read : bool;
  can_write : bool;
  clock : nat -> Z;
  reads : nat;
  console : list string
}.

Definition set_file (data : string) (w : World) : World :=
  mkWorld (Some data) (can_read w) (can_write w) (clock w) (reads w) (console w).

Definition console_error (line : string) (w : World) : World :=
  mkWorld (file w) (can_read w) (can_write w) (clock w) (reads w)
          (console w ++ [line])%list.

Definition tick (w : World) : World :=
  mkWorld (file w) (can_read w) (can_write w) (clock w) (S (reads w)) (console w).

(** A computation of the program: it may change the world, and it yields a
    value, or [None] when the file holds JSON that is not a [Task[]] (the
    program's type assertion is then false and what it does is outside
    this embedding). *)
Definition M (A : Type) : Type := World -> option A * World.

Definition ret {A} (a : A) : M A := fun w => (Some a, w).

Definition bind {A B} (m : M A) (k : A -> M B) : M B :=
  fun w =>
    match m w with
    | (Some a, w') => k a w'
    | (None, w') => (None, w')
    end.

Notation "x <- m ;; k" := (bind m (fun x => k))
  (at level 61, m at next level, right associativity).
Notation "m ;;; k" := (bind m (fun _ => k))
  (at level 61, right associativity).

(** [Date.now()] and [new Date()]: the next reading of the clock. *)
Definition Date_now : M Z := fun w => (Some (clock w (reads w)), tick w).

(* ================================================================== *)
(** * Store *)

(** The code units of a literal, to compare property names with. *)
Fixpoint units (s : string) : list N :=
  match s with
  | "" => []
  | String c s' => N_of_ascii c :: units s'
  end.

(** The string of a list of code units, when all are below 256. *)
Fixpoint latin1 (l : list N) : option string :=
  match l with
  | [] => Some ""
  | n :: l' =>
    if (n <? 256)%N then
      match latin1 l' with
      | Some s => Some (String (ascii_of_N n) s)
      | None => None
      end
    else None
  end.

Fixpoint units_eqb (a b : list N) : bool :=
  match a, b with
  | [], [] => true
  | x :: a', y :: b' => (x =? y)%N && units_eqb a' b'
  | _, _ => false
  end.

Definition is_key (k : list N) (name : string) : bool := units_eqb k (units name).

(** The task a parsed object is, when it has the shape this program
    writes: the properties [id], [title] (possibly absent), [completed],
    [createdAt], in this order, with values of the declared types. *)
Definition asTask (j : Json.json) : option Task :=
  match j with
  | Json.JObject [(k1, Json.JString i); (k2, Json.JString t);
                  (k3, Json.JBool c); (k4, Json.JString d)] =>
    if is_key k1 "id" && is_key k2 "title" && is_key k3 "completed"
       && is_key k4 "createdAt"
    then
      match latin1 i, latin1 t, latin1 d with
      | Some i', Some t', Some d' => Some (mkTask i' (Some t') c d')
      | _, _, _ => None
      end
    else None
  | Json.JObject [(k1, Json.JString i); (k3, Json.JBool c); (k4, Json.JString d)] =>
    if is_key k1 "id" && is_key k3 "completed" && is_key k4 "createdAt"
    then
      match latin1 i, latin1 d with
      | Some i', Some d' => Some (mkTask i' None c d')
      | _, _ => None
      end
    else None
  | _ => None
  end.

Fixpoint asTaskList (l : list Json.json) : option (list Task) :=
  match l with
  | [] => Some []
  | j :: l' =>
    match asTask j, asTaskList l' with
    | Some t, Some ts => Some (t :: ts)
    | _, _ => None
    end
  end.

(** The unchecked [Task[]] view of what [JSON.parse] returned. *)
Definition asTasks (j : Json.json) : option (list Task) :=
  match j with
  | Json.JArray l => asTaskList l
  | _ => None
  end.

(** [loadTasks].  The file is looked for with [existsSync]; reading it or
    parsing it can throw, the [catch] logs and falls through to
    [return []]. *)
Definition loadTasks : M (list Task) := fun w =>
  match file w with
  | Some data =>
    if can_read w then
      match Json.parse data with
      | Json.Parsed j _ => (asTasks j, w)
      | Json.SyntaxError => (Some [], console_error "Error loading tasks:" w)
      | Json.OutOfFuel => (None, w)
      end
    else (Some [], console_error "Error loading tasks:" w)
  | None => (Some [], w)
  end.

(** [saveTasks]: the whole file is replaced by the indented JSON text of
    [tasks]; a failing write throws, the [catch] logs it. *)
Definition saveTasks (tasks : list Task) : M unit := fun w =>
  if can_write w then (Some tt, set_file (Json.stringify_tasks tasks) w)
  else (Some tt, console_error "Error saving tasks:" w).

(* ================================================================== *)
(** * Task API *)

(** [t.id === id]: strict equality of two strings; [undefined] equals no
    string. *)
Definition id_is (i : option string) (t : Task) : bool :=
  match i with
  | Some s => String.eqb (id t) s
  | None => false
  end.

(** [Array.prototype.findIndex]; [None] is [-1]. *)
Fixpoint findIndex (p : Task -> bool) (l : list Task) : option nat :=
  match l with
  | [] => None
  | t :: l' =>
    if p t then Some O
    else match findIndex p l' with
         | Some n => Some (S n)
         | None => None
         end
  end.

(** An assignment to a property of the object at position [n] of an
    array. *)
Fixpoint update_at (n : nat) (f : Task -> Task) (l : list Task) : list Task :=
  match l, n with
  | [], _ => []
  | t :: l', O => f t :: l'
  | t :: l', S n' => t :: update_at n' f l'
  end.

(** [task.completed = true]. *)
Definition set_completed (t : Task) : Task :=
  mkTask (id t) (title t) true (createdAt t).

(** [tasks.splice(index, 1)]: the removed elements and the array left. *)
Definition splice1 (index : nat) (l : list Task) : list Task * list Task :=
  (firstn 1 (skipn index l), (firstn index l ++ skipn (S index) l)%list).

Definition createTask (title : option string) : M Task :=
  tasks <- loadTasks ;;
  now <- Date_now ;;
  date <- Date_now ;;
  let task := {| id := JsDate.toString now;
                 title := title;
                 completed := false;
                 createdAt := JsDate.toISOString date |} in
  let tasks := (tasks ++ [task])%list in
  saveTasks tasks ;;;
  ret task.

Definition listTasks : M (list Task) := loadTasks.

(** [None] in the result is [undefined]. *)
Definition getTask (id : option string) : M (option Task) :=
  tasks <- loadTasks ;;
  ret (find (id_is id) tasks).

(** [find] hands out the array's own object, here the position of the
    first match: the assignment to [task.completed] changes the array that
    is saved, and the returned [task] is that element.  [None] in the
    result is [null]. *)
Definition completeTask (id : option string) : M (option Task) :=
  tasks <- loadTasks ;;
  match findIndex (id_is id) tasks with
  | None => ret None
  | Some task =>
    let tasks := update_at task set_completed tasks in
    saveTasks tasks ;;;
    ret (nth_error tasks task)
  end.

Definition deleteTask (id : option string) : M (option Task) :=
  tasks <- loadTasks ;;
  match findIndex (id_is id) tasks with
  | None => ret None
  | Some index =>
    let (removed, tasks) := splice1 index tasks in
    let deleted := hd_error removed in
    saveTasks tasks ;;;
    ret deleted
  end.

(* ================================================================== *)
(** * HTTP adapter *)

Module Http.

(** The three shapes of a response body:
    [{success: true, data: [...], count}], [{success: true, data: task}]
    and [{success: false, error}]. *)
Inductive Body :=
| Listing (data : list Task) (count : nat)
| Single (data : Task)
| Failure (error : string).

Definition success (b : Body) : bool :=
  match b with
  | Listing _ _ | Single _ => true
  | Failure _ => false
  end.

(** A response: [res.status(n).json(b)]; [res.json(b)] alone answers with
    status 200. *)
Record Response := mkResponse { status : nat; body : Body }.

(** The requests the five routes match.  The body of a [POST] is the
    object [express.json()] parsed; of it only [title] is read, which is
    absent ([None]) or a string.  This is narrower than what the handler
    can be sent: a [POST] whose [title] is another JSON value (a number, an
    object), or that has no parsed body at all, is not a [Request], and a
    statement over every [Request] says nothing about it. *)
Inductive Request :=
| GET_tasks
| POST_tasks (title : option string)
| GET_task (id : string)
| PATCH_complete (id : string)
| DELETE_task (id : string).

(** [!title]: [undefined] and the empty string are falsy. *)
Definition not_title (title : option string) : bool :=
  match title with
  | None => true
  | Some "" => true
  | Some _ => false
  end.

Definition get_tasks : M Response :=
  allTasks <- listTasks ;;
  ret (mkResponse 200 (Listing allTasks (List.length allTasks))).

Definition post_tasks (title : option string) : M Response :=
  if not_title title then ret (mkResponse 400 (Failure "Title is required"))
  else
    task <- createTask title ;;
    ret (mkResponse 201 (Single task)).

Definition get_task (id : string) : M Response :=
  task <- getTask (Some id) ;;
  match task with
  | None => ret (mkResponse 404 (Failure "Task not found"))
  | Some task => ret (mkResponse 200 (Single task))
  end.

Definition patch_complete (id : string) : M Response :=
  task <- completeTask (Some id) ;;
  match task with
  | None => ret (mkResponse 404 (Failure "Task not found"))
  | Some task => ret (mkResponse 200 (Single task))
  end.

Definition delete_task (id : string) : M Response :=
  deleted <- deleteTask (Some id) ;;
  match deleted with
  | None => ret (mkResponse 404 (Failure "Task not found"))
  | Some deleted => ret (mkResponse 200 (Single deleted))
  end.

Definition handle (req : Request) : M Response :=
  match req with
  | GET_tasks => get_tasks
  | POST_tasks title => post_tasks title
  | GET_task id => get_task id
  | PATCH_complete id => patch_complete id
  | DELETE_task id => delete_task id
  end.

End Http.

(* ================================================================== *)
(** * MCP adapter *)

Module Mcp.

(** The arguments of a tool call, as far as the handler reads them: each
    of [title] and [id] is absent or a string.  This is narrower than what
    the handler can be sent: [as string] checks nothing, so a call whose
    [title] or [id] is another JSON value reaches the task API in the
    program; such a call is not an [Args], and a statement over every
    [Request] says nothing about it. *)
Record Args := mkArgs { arg_title : option string; arg_id : option string }.

(** [request.params]. *)
Record Request := mkRequest { name : string; arguments : option Args }.

(** The result of a tool call: the text of its one content item and the
    error flag (absent in the source when not set, here [false]). *)
Record Result := mkResult { text : string; isError : bool }.

Definition ok (text : string) : Result := mkResult text false.
Definition failed (text : string) : Result := mkResult text true.

(** A value of type [string | undefined] inside a template literal. *)
Definition interpolate (v : option string) : string :=
  match v with
  | Some s => s
  | None => "undefined"
  end.

Definition not_found (args : Args) : Result :=
  failed ("Task with ID " ++ interpolate (arg_id args) ++ " not found").

(** The handler of [CallToolRequestSchema].  No step of it throws on a
    typed store, so the [try] never reaches its [catch]. *)
Definition call_tool (request : Request) : M Result :=
  match arguments request with
  | None => ret (failed "No arguments provided")
  | Some args =>
    if name request =? "create_task" then
      task <- createTask (arg_title args) ;;
      ret (ok ("Task created successfully:" ++ Json.newline
               ++ Json.stringify_task task))
    else if name request =? "list_tasks" then
      allTasks <- listTasks ;;
      ret (ok (if (0 <? List.length allTasks)%nat
               then "Found " ++ JsDate.toString (Z.of_nat (List.length allTasks))
                    ++ " tasks:" ++ Json.newline ++ Json.stringify_tasks allTasks
               else "No tasks found"))
    else if name request =? "get_task" then
      task <- getTask (arg_id args) ;;
      match task with
      | None => ret (not_found args)
      | Some task => ret (ok (Json.stringify_task task))
      end
    else if name request =? "complete_task" then
      task <- completeTask (arg_id args) ;;
      match task with
      | None => ret (not_found args)
      | Some task =>
        ret (ok ("Task completed:" ++ Json.newline ++ Json.stringify_task task))
      end
    else if name request =? "delete_task" then
      deleted <- deleteTask (arg_id args) ;;
      match deleted with
      | None => ret (not_found args)
      | Some deleted =>
        ret (ok ("Task deleted:" ++ Json.newline ++ Json.stringify_task deleted))
      end
    else ret (failed ("Unknown tool: " ++ name request))
  end.

End Mcp.

(* ================================================================== *)
(** * Notions the statements use *)

(** The collection the program finds in a world: what [loadTasks] returns
    there. *)
Definition collection (w : World) : option (list Task) := fst (loadTasks w).

(** The world [loadTasks] leaves behind (it differs from [w] by a line on
    the console when loading failed). *)
Definition loaded (w : World) : World := snd (loadTasks w).

(** The JSON value of a task record. *)
Definition task_json (t : Task) : Json.json :=
  Json.JObject
    ([(units "id", Json.JString (units (id t)))]
     ++ match title t with
        | Some s => [(units "title", Json.JString (units s))]
        | None => []
        end
     ++ [(units "completed", Json.JBool (completed t));
         (units "createdAt", Json.JString (units (createdAt t)))])%list.

(** A text made of white space only. *)
Fixpoint all_ws (s : string) : bool :=
  match s with
  | "" => true
  | String c s' => Json.is_ws c && all_ws s'
  end.

(** A text that starts a value and parses to [v] whatever follows it. *)
Definition value_text (f : nat) (text : string) (v : Json.json) : Prop :=
  forall tail,
    Json.skip_ws (text ++ tail) = text ++ tail /\
    Json.parse_value f (text ++ tail) = Json.Parsed v tail.

(* ================================================================== *)
(** * Sample worlds *)

Definition sample_clock (n : nat) : Z := (1700000000000 + Z.of_nat n)%Z.

(** A first run: no file yet, a working disk. *)
Definition fresh_world : World := mkWorld None true true sample_clock 0 [].

Definition milk : Task :=
  mkTask "1700000000000" (Some "Buy milk") false "2023-11-14T22:13:20.000Z".
Definition bread : Task :=
  mkTask "1700000000007" (Some "Bake bread") true "2023-11-14T22:13:20.007Z".

(** A second record with the id of [milk]. *)
Definition milk_again : Task :=
  mkTask "1700000000000" (Some "Buy more milk") false "2023-11-14T22:13:20.001Z".

(** A world whose file holds [ts] as this program writes them. *)
Definition world_of (ts : list Task) : World :=
  mkWorld (Some (Json.stringify_tasks ts)) true true sample_clock 0 [].

(** The tool call [create_task] with the given [title] argument. *)
Definition create_task_call (title : option string) : Mcp.Request :=
  Mcp.mkRequest "create_task" (Some (Mcp.mkArgs title None)).

(* ================================================================== *)
(** * The tools the MCP server lists, and the start of the program *)

(** One entry of [properties] in an input schema: the name of the property
    and its [type] and [description]. *)
Record SchemaProperty := mkSchemaProperty {
  property_name : string;
  property_type : string;
  property_description : string
}.

(** One tool of the answer to [ListToolsRequestSchema]; the schema's own
    [type] is [object] for all five, and a schema without [required]
    requires nothing. *)
Record Tool := mkTool {
  tool_name : string;
  tool_description : string;
  tool_properties : list SchemaProperty;
  tool_required : list string
}.

(** The handler of [ListToolsRequestSchema]: always the same five tools. *)
Definition list_tools : list Tool :=
  [ mkTool "create_task" "Create a new task"
      [mkSchemaProperty "title" "string" "The title of the task"] ["title"];
    mkTool "list_tasks" "List all tasks" [] [];
    mkTool "get_task" "Get a single task by ID"
      [mkSchemaProperty "id" "string" "The ID of the task"] ["id"];
    mkTool "complete_task" "Mark a task as completed"
      [mkSchemaProperty "id" "string" "The ID of the task to complete"] ["id"];
    mkTool "delete_task" "Delete a task"
      [mkSchemaProperty "id" "string" "The ID of the task to delete"] ["id"] ].

(** The value of the argument called [key] in [args] ([undefined] for any
    name the handler never reads). *)
Definition argument (args : Mcp.Args) (key : string) : option string :=
  if key =? "title" then Mcp.arg_title args
  else if key =? "id" then Mcp.arg_id args
  else None.

(** The servers the program can start. *)
Inductive Server := HttpServer | McpServer.

(** The end of the file: [mode] is [process.argv[2]] ([None] when the
    program got no argument); the result lists the servers started, in
    the order of the calls. *)
Definition start (mode : option string) : list Server :=
  match mode with
  | Some m =>
    if m =? "--http" then [HttpServer]
    else if m =? "--mcp" then [McpServer]
    else [HttpServer; McpServer]
  | None => [HttpServer; McpServer]
  end.

(** The tool call [name] with the argument [id]. *)
Definition id_call (name : string) (i : option string) : Mcp.Request :=
  Mcp.mkRequest name (Some (Mcp.mkArgs None i)).

(* ================================================================== *)
(** * How a request can change the store *)

(** The ways a collection can differ after one request: one record that is
    not completed was appended, the flag of one record was set, one record
    was removed, or nothing changed. *)
Inductive change : list Task -> list Task -> Prop :=
| Appended ts t : completed t = false -> change ts (ts ++ [t])
| Completed l1 t l2 : change (l1 ++ t :: l2) (l1 ++ set_completed t :: l2)
| Removed l1 t l2 : change (l1 ++ t :: l2) (l1 ++ l2)
| Unchanged ts : change ts ts.

(** [w0] differs from [w] by clock readings at most. *)
Definition same_disk (w0 w : World) : Prop :=
  file w0 = file w /\ can_read w0 = can_read w /\
  can_write w0 = can_write w /\ console w0 = console w.

(** The worlds a request can leave when it started in [w], where the store
    holds [ts]: [w] itself, the one [loadTasks] left, or the one
    [saveTasks] left when called once, with a list that differs from [ts]
    by one [change]. *)
Inductive outcome_world (w : World) (ts : list Task) : World -> Prop :=
| Untouched : outcome_world w ts w
| Read_only : outcome_world w ts (loaded w)
| Written ts' w0 :
    same_disk w0 (loaded w) -> change ts ts' ->
    outcome_world w ts (snd (saveTasks ts' w0)).

(* ================================================================== *)
(** * Facts about the JSON functions *)

Import Json.

(** ** The parser always answers, and more budget changes nothing *)

Section Fuel.

Local Abbreviation len := String.length.

Lemma skip_ws_length s : (len (skip_ws s) <= len s)%nat.
Proof.
  induction s as [|c s IH]; simpl; [lia|].
  destruct (is_ws c); simpl; lia.
Qed.

Lemma pcons_parsed x r l rest :
  pcons x r = Parsed l rest -> exists l', r = Parsed l' rest /\ l = x :: l'.
Proof. destruct r; simpl; intros H; inversion H; eauto. Qed.

Lemma parse_chars_length_aux n :
  forall s l r, (len s <= n)%nat -> parse_chars s = Parsed l r -> (len r < len s)%nat.
Proof.
  induction n as [|n IH]; intros s l r Hn H.
  - destruct s; simpl in *; [discriminate|lia].
  - destruct s as [|c s]; [discriminate|].
    simpl in H, Hn.
    destruct (N_of_ascii c =? 34)%N.
    { inversion H; subst; simpl; lia. }
    destruct (N_of_ascii c =? 92)%N.
    { destruct s as [|e s]; [discriminate|].
      destruct (N_of_ascii e =? 117)%N.
      - destruct s as [|h1 [|h2 [|h3 [|h4 s]]]]; try discriminate.
        destruct (hex4 h1 h2 h3 h4); [|discriminate].
        apply pcons_parsed in H. destruct H as (l' & H & _).
        apply IH in H; simpl in *; lia.
      - destruct (short_escape e); [|discriminate].
        apply pcons_parsed in H. destruct H as (l' & H & _).
        apply IH in H; simpl in *; lia. }
    destruct (N_of_ascii c <? 32)%N; [discriminate|].
    apply pcons_parsed in H. destruct H as (l' & H & _).
    apply IH in H; simpl in *; lia.
Qed.

Lemma parse_chars_length s l r :
  parse_chars s = Parsed l r -> (len r < len s)%nat.
Proof. apply (parse_chars_length_aux (len s)); lia. Qed.

Lemma pcons_fuel x r : pcons x r = OutOfFuel -> r = OutOfFuel.
Proof. destruct r; simpl; congruence. Qed.

Lemma parse_chars_fuel_aux n :
  forall s, (len s <= n)%nat -> parse_chars s <> OutOfFuel.
Proof.
  induction n as [|n IH]; intros s Hn H.
  - destruct s; simpl in *; [discriminate|lia].
  - destruct s as [|c s]; [discriminate|].
    simpl in H, Hn.
    destruct (N_of_ascii c =? 34)%N; [discriminate|].
    destruct (N_of_ascii c =? 92)%N.
    { destruct s as [|e s]; [discriminate|].
      destruct (N_of_ascii e =? 117)%N.
      - destruct s as [|h1 [|h2 [|h3 [|h4 s]]]]; try discriminate.
        destruct (hex4 h1 h2 h3 h4); [|discriminate].
        apply pcons_fuel in H. apply IH in H; [assumption|simpl in *; lia].
      - destruct (short_escape e); [|discriminate].
        apply pcons_fuel in H. apply IH in H; [assumption|simpl in *; lia]. }
    destruct (N_of_ascii c <? 32)%N; [discriminate|].
    apply pcons_fuel in H. apply IH in H; [assumption|simpl in *; lia].
Qed.

Lemma parse_chars_fuel s : parse_chars s <> OutOfFuel.
Proof. apply (parse_chars_fuel_aux (len s)); lia. Qed.

Lemma take_digits_length s d r :
  take_digits s = (d, r) -> (len r <= len s)%nat.
Proof.
  revert d r. induction s as [|c s IH]; simpl; intros d r H.
  - inversion H; simpl; lia.
  - destruct (is_digit c).
    + destruct (take_digits s) as [d' r'] eqn:E. inversion H; subst.
      specialize (IH _ _ eq_refl). lia.
    + inversion H; subst; simpl; lia.
Qed.

Lemma parse_int_part_length s i r :
  parse_int_part s = Some (i, r) -> (len r < len s)%nat.
Proof.
  destruct s as [|c s]; simpl; [discriminate|].
  destruct (N_of_ascii c =? 48)%N.
  - intros H; inversion H; subst; lia.
  - destruct (is_digit c); [|discriminate].
    destruct (take_digits s) as [d' r'] eqn:E. intros H; inversion H; subst.
    apply take_digits_length in E. lia.
Qed.

Lemma parse_frac_length s i r :
  parse_frac s = Some (i, r) -> (len r <= len s)%nat.
Proof.
  destruct s as [|c s]; simpl.
  - intros H; inversion H; simpl; lia.
  - destruct (N_of_ascii c =? 46)%N.
    + destruct (take_digits s) as [d' r'] eqn:E.
      apply take_digits_length in E.
      destruct d'; [discriminate|]. intros H; inversion H; subst. lia.
    + intros H; inversion H; subst; simpl; lia.
Qed.

Lemma parse_exp_length s i r :
  parse_exp s = Some (i, r) -> (len r <= len s)%nat.
Proof.
  destruct s as [|c s]; simpl.
  - intros H; inversion H; simpl; lia.
  - destruct ((N_of_ascii c =? 101) || (N_of_ascii c =? 69))%N.
    + destruct s as [|g t].
      * simpl. discriminate.
      * destruct ((N_of_ascii g =? 43) || (N_of_ascii g =? 45))%N.
        -- destruct (take_digits t) as [d' r'] eqn:E.
           apply take_digits_length in E.
           destruct d'; [discriminate|]. intros H; inversion H; subst. simpl; lia.
        -- destruct (take_digits (String g t)) as [d' r'] eqn:E.
           apply take_digits_length in E.
           destruct d'; [discriminate|]. intros H; inversion H; subst. simpl in *; lia.
    + intros H; inversion H; subst; simpl; lia.
Qed.

Lemma parse_unsigned_length s l r :
  parse_unsigned s = Some (l, r) -> (len r < len s)%nat.
Proof.
  unfold parse_unsigned.
  destruct (parse_int_part s) as [[i r1]|] eqn:E1; [|discriminate].
  destruct (parse_frac r1) as [[f r2]|] eqn:E2; [|discriminate].
  destruct (parse_exp r2) as [[e r3]|] eqn:E3; [|discriminate].
  intros H; inversion H; subst.
  apply parse_int_part_length in E1. apply parse_frac_length in E2.
  apply parse_exp_length in E3. lia.
Qed.

Lemma parse_number_length s v r :
  parse_number s = Parsed v r -> (len r < len s)%nat.
Proof.
  destruct s as [|c s]; simpl; [discriminate|].
  destruct (N_of_ascii c =? 45)%N.
  - destruct (parse_unsigned s) as [[l r']|] eqn:E; [|discriminate].
    intros H; inversion H; subst. apply parse_unsigned_length in E. lia.
  - destruct (parse_unsigned (String c s)) as [[l r']|] eqn:E; [|discriminate].
    intros H; inversion H; subst. apply parse_unsigned_length in E. simpl in E. lia.
Qed.

Lemma parse_number_fuel s : parse_number s <> OutOfFuel.
Proof.
  destruct s as [|c s]; simpl; [discriminate|].
  destruct (N_of_ascii c =? 45)%N.
  - destruct (parse_unsigned s) as [[l r']|]; discriminate.
  - destruct (parse_unsigned (String c s)) as [[l r']|]; discriminate.
Qed.

Lemma expect_length w s r :
  expect w s = Some r -> (len r + len w = len s)%nat.
Proof.
  revert s. induction w as [|a w IH]; simpl; intros s H.
  - inversion H; lia.
  - destruct s as [|b s]; [discriminate|].
    destruct (Ascii.eqb a b); [|discriminate].
    apply IH in H. simpl; lia.
Qed.

Lemma parse_word_length w v s v' r :
  w <> "" -> parse_word w v s = Parsed v' r -> (len r < len s)%nat.
Proof.
  unfold parse_word. intros Hw.
  destruct (expect w s) eqn:E; [|discriminate].
  intros H; inversion H; subst. apply expect_length in E.
  destruct w; [congruence|]. simpl in E. lia.
Qed.

Lemma parse_word_fuel w v s : parse_word w v s <> OutOfFuel.
Proof. unfold parse_word. destruct (expect w s); discriminate. Qed.


Lemma parse_value_0 s : parse_value 0 s = OutOfFuel.
Proof. reflexivity. Qed.
Lemma parse_elements_0 s : parse_elements 0 s = OutOfFuel.
Proof. reflexivity. Qed.
Lemma parse_members_0 s : parse_members 0 s = OutOfFuel.
Proof. reflexivity. Qed.

Lemma parse_value_unfold f s :
  parse_value (S f) s =
    match s with
    | "" => SyntaxError
    | String c s' =>
      let n := N_of_ascii c in
      if (n =? 34)%N then
        match parse_chars s' with
        | Parsed l r => Parsed (JString l) r
        | SyntaxError => SyntaxError
        | OutOfFuel => OutOfFuel
        end
      else if (n =? 91)%N then
        match skip_ws s' with
        | String c1 r1 =>
          if (N_of_ascii c1 =? 93)%N then Parsed (JArray []) r1
          else
            match parse_elements f (String c1 r1) with
            | Parsed l r => Parsed (JArray l) r
            | SyntaxError => SyntaxError
            | OutOfFuel => OutOfFuel
            end
        | "" => SyntaxError
        end
      else if (n =? 123)%N then
        match skip_ws s' with
        | String c1 r1 =>
          if (N_of_ascii c1 =? 125)%N then Parsed (JObject []) r1
          else
            match parse_members f (String c1 r1) with
            | Parsed l r => Parsed (JObject l) r
            | SyntaxError => SyntaxError
            | OutOfFuel => OutOfFuel
            end
        | "" => SyntaxError
        end
      else if (n =? 116)%N then parse_word "true" (JBool true) s
      else if (n =? 102)%N then parse_word "false" (JBool false) s
      else if (n =? 110)%N then parse_word "null" JNull s
      else parse_number s
    end.
Proof. destruct s; reflexivity. Qed.

Lemma parse_elements_unfold f s :
  parse_elements (S f) s =
    match parse_value f s with
    | Parsed v r =>
      match skip_ws r with
      | String c r1 =>
        if (N_of_ascii c =? 93)%N then Parsed [v] r1
        else if (N_of_ascii c =? 44)%N then
          match parse_elements f (skip_ws r1) with
          | Parsed l r2 => Parsed (v :: l) r2
          | SyntaxError => SyntaxError
          | OutOfFuel => OutOfFuel
          end
        else SyntaxError
      | "" => SyntaxError
      end
    | SyntaxError => SyntaxError
    | OutOfFuel => OutOfFuel
    end.
Proof. reflexivity. Qed.

Lemma parse_members_unfold f s :
  parse_members (S f) s =
    match s with
    | String c s' =>
      if (N_of_ascii c =? 34)%N then
        match parse_chars s' with
        | Parsed k r =>
          match skip_ws r with
          | String c1 r1 =>
            if (N_of_ascii c1 =? 58)%N then
              match parse_value f (skip_ws r1) with
              | Parsed v r2 =>
                match skip_ws r2 with
                | String c2 r3 =>
                  if (N_of_ascii c2 =? 125)%N then Parsed [(k, v)] r3
                  else if (N_of_ascii c2 =? 44)%N then
                    match parse_members f (skip_ws r3) with
                    | Parsed l r4 => Parsed ((k, v) :: l) r4
                    | SyntaxError => SyntaxError
                    | OutOfFuel => OutOfFuel
                    end
                  else SyntaxError
                | "" => SyntaxError
                end
              | SyntaxError => SyntaxError
              | OutOfFuel => OutOfFuel
              end
            else SyntaxError
          | "" => SyntaxError
          end
        | SyntaxError => SyntaxError
        | OutOfFuel => OutOfFuel
        end
      else SyntaxError
    | "" => SyntaxError
    end.
Proof. destruct s; reflexivity. Qed.

(** Case analysis on the scrutinee of the first [match] or [if] of a
    hypothesis or of the goal. *)
Ltac split_match H :=
  match type of H with
  | context [match ?x with _ => _ end] =>
    lazymatch x with
    | context [match _ with _ => _ end] => fail
    | _ => let E := fresh "E" in destruct x eqn:E
    end
  end.

Ltac skip_ws_bound :=
  repeat match goal with
  | E : context [skip_ws ?s] |- _ =>
    lazymatch goal with
    | _ : (len (skip_ws s) <= len s)%nat |- _ => fail
    | _ => pose proof (skip_ws_length s)
    end
  end.

Ltac parsed_bounds IHv IHe IHm :=
  repeat match goal with
  | E : parse_chars _ = Parsed _ _ |- _ => apply parse_chars_length in E
  | E : parse_value _ _ = Parsed _ _ |- _ => apply IHv in E
  | E : parse_elements _ _ = Parsed _ _ |- _ => apply IHe in E
  | E : parse_members _ _ = Parsed _ _ |- _ => apply IHm in E
  | E : parse_word _ _ _ = Parsed _ _ |- _ =>
    apply parse_word_length in E; [|discriminate]
  | E : parse_number _ = Parsed _ _ |- _ => apply parse_number_length in E
  end;
  skip_ws_bound;
  repeat match goal with E : skip_ws _ = _ |- _ => rewrite E in * end.

Lemma parse_length f :
  (forall s v r, parse_value f s = Parsed v r -> (len r < len s)%nat) /\
  (forall s l r, parse_elements f s = Parsed l r -> (len r < len s)%nat) /\
  (forall s l r, parse_members f s = Parsed l r -> (len r < len s)%nat).
Proof.
  induction f as [|f (IHv & IHe & IHm)].
  - repeat split; intros; discriminate.
  - repeat split; intros s v r H.
    + rewrite parse_value_unfold in H. cbv zeta in H.
      repeat (split_match H; try discriminate);
        parsed_bounds IHv IHe IHm;
        try (injection H as <- <-); simpl in *; lia.
    + rewrite parse_elements_unfold in H.
      repeat (split_match H; try discriminate);
        parsed_bounds IHv IHe IHm;
        try (injection H as <- <-); simpl in *; lia.
    + rewrite parse_members_unfold in H.
      repeat (split_match H; try discriminate);
        parsed_bounds IHv IHe IHm;
        try (injection H as <- <-); simpl in *; lia.
Qed.


Lemma parse_enough_fuel f :
  (forall s, (2 * len s + 1 <= f)%nat -> parse_value f s <> OutOfFuel) /\
  (forall s, (2 * len s + 2 <= f)%nat -> parse_elements f s <> OutOfFuel) /\
  (forall s, (2 * len s + 2 <= f)%nat -> parse_members f s <> OutOfFuel).
Proof.
  induction f as [|f (IHv & IHe & IHm)].
  - repeat split; intros; lia.
  - destruct (parse_length f) as (Lv & Le & Lm).
    repeat split; intros s Hf H.
    + rewrite parse_value_unfold in H. cbv zeta in H.
      repeat (split_match H; try discriminate);
        try (eapply parse_chars_fuel; eassumption);
        try (eapply parse_word_fuel; eassumption);
        try (eapply parse_number_fuel; eassumption);
        match goal with
        | E : parse_elements f ?x = OutOfFuel |- _ => apply (IHe x); [|assumption]
        | E : parse_members f ?x = OutOfFuel |- _ => apply (IHm x); [|assumption]
        end;
        parsed_bounds Lv Le Lm; simpl in *; lia.
    + rewrite parse_elements_unfold in H.
      repeat (split_match H; try discriminate);
        match goal with
        | E : parse_value f ?x = OutOfFuel |- _ => apply (IHv x); [|assumption]
        | E : parse_elements f ?x = OutOfFuel |- _ => apply (IHe x); [|assumption]
        end;
        parsed_bounds Lv Le Lm; simpl in *; lia.
    + rewrite parse_members_unfold in H.
      repeat (split_match H; try discriminate);
        try (eapply parse_chars_fuel; eassumption);
        match goal with
        | E : parse_value f ?x = OutOfFuel |- _ => apply (IHv x); [|assumption]
        | E : parse_members f ?x = OutOfFuel |- _ => apply (IHm x); [|assumption]
        end;
        parsed_bounds Lv Le Lm; simpl in *; lia.
Qed.

(** [JSON.parse] always gives an answer: the budget is never used up. *)
Lemma parse_never_out_of_fuel s : parse s <> OutOfFuel.
Proof.
  unfold parse. intros H.
  destruct (parse_value (2 * len s + 2) (skip_ws s)) eqn:E.
  - destruct (skip_ws rest); discriminate.
  - discriminate.
  - destruct (parse_enough_fuel (2 * len s + 2)) as (Hv & _).
    apply (Hv (skip_ws s)); [|assumption].
    pose proof (skip_ws_length s). lia.
Qed.

Ltac refuel IHv IHe IHm :=
  repeat match goal with
  | E : parse_value ?f _ = _ |- context [parse_value (S ?f) _] =>
    apply IHv in E; [|discriminate]
  | E : parse_elements ?f _ = _ |- context [parse_elements (S ?f) _] =>
    apply IHe in E; [|discriminate]
  | E : parse_members ?f _ = _ |- context [parse_members (S ?f) _] =>
    apply IHm in E; [|discriminate]
  | E : ?l = _ |- context [?l] => rewrite E
  end.

Lemma parse_fuel_step f :
  (forall s r, parse_value f s = r -> r <> OutOfFuel -> parse_value (S f) s = r) /\
  (forall s r, parse_elements f s = r -> r <> OutOfFuel ->
               parse_elements (S f) s = r) /\
  (forall s r, parse_members f s = r -> r <> OutOfFuel ->
               parse_members (S f) s = r).
Proof.
  induction f as [|f (IHv & IHe & IHm)].
  - repeat split; intros s r H Hr; subst; exfalso; apply Hr; reflexivity.
  - repeat split; intros s r H Hr.
    + rewrite parse_value_unfold in H |- *. cbv zeta in H |- *.
      destruct s as [|c s']; [assumption|].
      repeat (split_match H; try congruence); refuel IHv IHe IHm; congruence.
    + rewrite parse_elements_unfold in H |- *.
      repeat (split_match H; try congruence); refuel IHv IHe IHm; congruence.
    + rewrite parse_members_unfold in H |- *.
      destruct s as [|c s']; [assumption|].
      repeat (split_match H; try congruence); refuel IHv IHe IHm; congruence.
Qed.

Lemma parse_value_more_fuel f f' s r :
  parse_value f s = r -> r <> OutOfFuel -> (f <= f')%nat -> parse_value f' s = r.
Proof.
  intros H Hr Hle. induction Hle as [|f' _ IH]; [assumption|].
  apply (proj1 (parse_fuel_step f')); assumption.
Qed.

End Fuel.

(** ** Parsing what [JSON.stringify] wrote *)

Section Roundtrip.

Lemma parse_chars_quote_char (c : ascii) (x : string) :
  parse_chars (quote_char c ++ x) = pcons (N_of_ascii c) (parse_chars x).
Proof.
  destruct c as [[] [] [] [] [] [] [] []]; reflexivity.
Qed.

Lemma append_assoc (a b c : string) : (a ++ b) ++ c = a ++ (b ++ c).
Proof. induction a; simpl; congruence. Qed.

Lemma parse_chars_quote_body (s rest : string) :
  parse_chars (quote_body s ++ String dquote rest) = Parsed (units s) rest.
Proof.
  induction s as [|c s IH]; [reflexivity|].
  cbn [quote_body units]. rewrite append_assoc, parse_chars_quote_char, IH.
  reflexivity.
Qed.

Lemma quote_app (s rest : string) :
  quote s ++ rest = String dquote (quote_body s ++ String dquote rest).
Proof. unfold quote, dq. rewrite !append_assoc. reflexivity. Qed.

Lemma skip_ws_all_ws (p x : string) :
  all_ws p = true -> skip_ws (p ++ x) = skip_ws x.
Proof.
  induction p as [|c p IH]; simpl; [reflexivity|].
  intros H. apply andb_true_iff in H. destruct H as [Hc Hp].
  rewrite Hc. auto.
Qed.

Lemma parse_value_cons f c s' :
  parse_value (S f) (String c s') =
      let n := N_of_ascii c in
      if (n =? 34)%N then
        match parse_chars s' with
        | Parsed l r => Parsed (JString l) r
        | SyntaxError => SyntaxError
        | OutOfFuel => OutOfFuel
        end
      else if (n =? 91)%N then
        match skip_ws s' with
        | String c1 r1 =>
          if (N_of_ascii c1 =? 93)%N then Parsed (JArray []) r1
          else
            match parse_elements f (String c1 r1) with
            | Parsed l r => Parsed (JArray l) r
            | SyntaxError => SyntaxError
            | OutOfFuel => OutOfFuel
            end
        | "" => SyntaxError
        end
      else if (n =? 123)%N then
        match skip_ws s' with
        | String c1 r1 =>
          if (N_of_ascii c1 =? 125)%N then Parsed (JObject []) r1
          else
            match parse_members f (String c1 r1) with
            | Parsed l r => Parsed (JObject l) r
            | SyntaxError => SyntaxError
            | OutOfFuel => OutOfFuel
            end
        | "" => SyntaxError
        end
      else if (n =? 116)%N then parse_word "true" (JBool true) (String c s')
      else if (n =? 102)%N then parse_word "false" (JBool false) (String c s')
      else if (n =? 110)%N then parse_word "null" JNull (String c s')
      else parse_number (String c s').
Proof. reflexivity. Qed.

Lemma parse_value_quote f s rest :
  parse_value (S f) (quote s ++ rest) = Parsed (JString (units s)) rest.
Proof.
  rewrite quote_app, parse_value_cons. cbv zeta.
  change (N_of_ascii dquote =? 34)%N with true. cbv iota.
  rewrite parse_chars_quote_body. reflexivity.
Qed.

Lemma parse_value_bool f b rest :
  parse_value (S f) (print_bool b ++ rest) = Parsed (JBool b) rest.
Proof. destruct b; reflexivity. Qed.


Lemma parse_members_cons f c s' :
  parse_members (S f) (String c s') =
      if (N_of_ascii c =? 34)%N then
        match parse_chars s' with
        | Parsed k r =>
          match skip_ws r with
          | String c1 r1 =>
            if (N_of_ascii c1 =? 58)%N then
              match parse_value f (skip_ws r1) with
              | Parsed v r2 =>
                match skip_ws r2 with
                | String c2 r3 =>
                  if (N_of_ascii c2 =? 125)%N then Parsed [(k, v)] r3
                  else if (N_of_ascii c2 =? 44)%N then
                    match parse_members f (skip_ws r3) with
                    | Parsed l r4 => Parsed ((k, v) :: l) r4
                    | SyntaxError => SyntaxError
                    | OutOfFuel => OutOfFuel
                    end
                  else SyntaxError
                | "" => SyntaxError
                end
              | SyntaxError => SyntaxError
              | OutOfFuel => OutOfFuel
              end
            else SyntaxError
          | "" => SyntaxError
          end
        | SyntaxError => SyntaxError
        | OutOfFuel => OutOfFuel
        end
      else SyntaxError.
Proof. reflexivity. Qed.



Lemma value_text_quote f s : value_text (S f) (quote s) (JString (units s)).
Proof.
  intros tail. split; [|apply parse_value_quote].
  rewrite quote_app. reflexivity.
Qed.

Lemma value_text_bool f b : value_text (S f) (print_bool b) (JBool b).
Proof. intros tail. split; [destruct b; reflexivity | apply parse_value_bool]. Qed.

Lemma parse_member_head f k text v tail :
  value_text f text v ->
  parse_members (S f) (quote k ++ ": " ++ text ++ tail) =
    match skip_ws tail with
    | String c2 r3 =>
      if (N_of_ascii c2 =? 125)%N then Parsed [(units k, v)] r3
      else if (N_of_ascii c2 =? 44)%N then
        match parse_members f (skip_ws r3) with
        | Parsed l r4 => Parsed ((units k, v) :: l) r4
        | SyntaxError => SyntaxError
        | OutOfFuel => OutOfFuel
        end
      else SyntaxError
    | "" => SyntaxError
    end.
Proof.
  intros Hv. destruct (Hv tail) as [Hs Hp].
  rewrite quote_app, parse_members_cons.
  change (N_of_ascii dquote =? 34)%N with true. cbv iota.
  rewrite parse_chars_quote_body.
  change (skip_ws (": " ++ text ++ tail))
    with (String ":" (String " " (text ++ tail))).
  change (N_of_ascii ":" =? 58)%N with true. cbv iota.
  change (skip_ws (String " " (text ++ tail))) with (skip_ws (text ++ tail)).
  rewrite Hs, Hp. reflexivity.
Qed.

Lemma parse_member_last f k text v ind rest :
  value_text f text v -> all_ws ind = true ->
  parse_members (S f) (quote k ++ ": " ++ text ++ newline ++ ind ++ "}" ++ rest)
  = Parsed [(units k, v)] rest.
Proof.
  intros Hv Hind. rewrite (parse_member_head _ _ _ _ _ Hv).
  change (skip_ws (newline ++ ind ++ "}" ++ rest))
    with (skip_ws (ind ++ "}" ++ rest)).
  rewrite skip_ws_all_ws by assumption. reflexivity.
Qed.

Lemma parse_member_more f k text v ind k' next :
  value_text f text v -> all_ws ind = true ->
  parse_members (S f)
    (quote k ++ ": " ++ text ++ "," ++ newline ++ ind ++ "  " ++ quote k' ++ next)
  = match parse_members f (quote k' ++ next) with
    | Parsed l r => Parsed ((units k, v) :: l) r
    | SyntaxError => SyntaxError
    | OutOfFuel => OutOfFuel
    end.
Proof.
  intros Hv Hind. rewrite (parse_member_head _ _ _ _ _ Hv).
  change (skip_ws ("," ++ newline ++ ind ++ "  " ++ quote k' ++ next))
    with (String "," (newline ++ ind ++ "  " ++ quote k' ++ next)).
  change (N_of_ascii "," =? 125)%N with false.
  change (N_of_ascii "," =? 44)%N with true. cbv iota.
  change (skip_ws (newline ++ ind ++ "  " ++ quote k' ++ next))
    with (skip_ws (ind ++ "  " ++ quote k' ++ next)).
  rewrite skip_ws_all_ws by assumption.
  rewrite quote_app. reflexivity.
Qed.


Lemma skip_ws_indent ind k x :
  all_ws ind = true ->
  skip_ws (newline ++ ind ++ "  " ++ quote k ++ x)
  = String dquote (quote_body k ++ String dquote x).
Proof.
  intros Hind.
  change (skip_ws (newline ++ ind ++ "  " ++ quote k ++ x))
    with (skip_ws (ind ++ "  " ++ quote k ++ x)).
  rewrite skip_ws_all_ws by assumption. rewrite quote_app. reflexivity.
Qed.

Lemma parse_value_task f ind t rest :
  all_ws ind = true ->
  parse_value (6 + f) (stringify_task_at ind t ++ rest) = Parsed (task_json t) rest.
Proof.
  intros Hind. unfold stringify_task_at, task_members, task_json.
  destruct t as [i [ti|] c d]; cbn [id title completed createdAt List.app join];
    rewrite !append_assoc;
    change (6 + f)%nat with (S (5 + f));
    change ("{" ++ ?x) with (String "{" x);
    rewrite parse_value_cons; cbv zeta;
    change (N_of_ascii "{" =? 34)%N with false;
    change (N_of_ascii "{" =? 91)%N with false;
    change (N_of_ascii "{" =? 123)%N with true; cbv iota;
    rewrite skip_ws_indent by assumption;
    change (N_of_ascii dquote =? 125)%N with false; cbv iota;
    rewrite <- quote_app.
  - change (5 + f)%nat with (S (S (S (S (S f))))).
    rewrite (parse_member_more _ _ _ _ _ _ _ (value_text_quote _ _) Hind).
    rewrite (parse_member_more _ _ _ _ _ _ _ (value_text_quote _ _) Hind).
    rewrite (parse_member_more _ _ _ _ _ _ _ (value_text_bool _ _) Hind).
    rewrite (parse_member_last _ _ _ _ _ _ (value_text_quote _ _) Hind).
    reflexivity.
  - change (5 + f)%nat with (S (S (S (S (S f))))).
    rewrite (parse_member_more _ _ _ _ _ _ _ (value_text_quote _ _) Hind).
    rewrite (parse_member_more _ _ _ _ _ _ _ (value_text_bool _ _) Hind).
    rewrite (parse_member_last _ _ _ _ _ _ (value_text_quote _ _) Hind).
    reflexivity.
Qed.

Lemma skip_ws_task ind t rest :
  skip_ws (stringify_task_at ind t ++ rest) = stringify_task_at ind t ++ rest.
Proof. reflexivity. Qed.



Lemma join_cons2 sep (x y : string) l :
  join sep (x :: y :: l) = x ++ sep ++ join sep (y :: l).
Proof. reflexivity. Qed.

Lemma tasks_text_starts ind sep t ts x :
  exists r, join sep (map (stringify_task_at ind) (t :: ts)) ++ x = String "{" r.
Proof. destruct ts; cbn [map join]; eexists; reflexivity. Qed.

(** The elements of a non-empty array of tasks, up to the closing bracket. *)
Lemma parse_elements_tasks t ts f rest :
  (List.length ts + 7 <= f)%nat ->
  parse_elements f
    (join ("," ++ newline ++ "  ") (map (stringify_task_at "  ") (t :: ts))
     ++ newline ++ "]" ++ rest)
  = Parsed (map task_json (t :: ts)) rest.
Proof.
  revert t f. induction ts as [|t' ts IH]; intros t f Hf.
  - destruct f as [|f]; [simpl in Hf; lia|].
    replace f with (6 + (f - 6))%nat by (simpl in Hf; lia).
    cbn [map join]. rewrite parse_elements_unfold, parse_value_task by reflexivity.
    reflexivity.
  - destruct f as [|f]; [simpl in Hf; lia|].
    change (map (stringify_task_at "  ") (t :: t' :: ts))
      with (stringify_task_at "  " t :: stringify_task_at "  " t'
              :: map (stringify_task_at "  ") ts).
    rewrite join_cons2.
    change (stringify_task_at "  " t' :: map (stringify_task_at "  ") ts)
      with (map (stringify_task_at "  ") (t' :: ts)).
    rewrite !append_assoc.
    rewrite parse_elements_unfold.
    replace f with (6 + (f - 6))%nat at 1 by (simpl in Hf; lia).
    rewrite parse_value_task by reflexivity.
    change (skip_ws ("," ++ ?x)) with (String "," x).
    change (N_of_ascii "," =? 93)%N with false.
    change (N_of_ascii "," =? 44)%N with true. cbv iota.
    match goal with |- context [skip_ws (newline ++ "  " ++ ?x)] =>
      change (skip_ws (newline ++ "  " ++ x)) with (skip_ws x) end.
    destruct (tasks_text_starts "  " ("," ++ newline ++ "  ") t' ts
                (newline ++ "]" ++ rest)) as [r Hr].
    rewrite Hr. change (skip_ws (String "{" r)) with (String "{" r).
    rewrite <- Hr. rewrite IH by (simpl in Hf |- *; lia). reflexivity.
Qed.

Lemma parse_value_tasks ts f :
  (List.length ts + 8 <= f)%nat ->
  parse_value f (stringify_tasks ts) = Parsed (JArray (map task_json ts)) "".
Proof.
  intros Hf. destruct f as [|f]; [lia|].
  destruct ts as [|t ts]; [reflexivity|].
  unfold stringify_tasks.
  change ("[" ++ ?x) with (String "[" x).
  rewrite parse_value_cons. cbv zeta.
  change (N_of_ascii "[" =? 34)%N with false.
  change (N_of_ascii "[" =? 91)%N with true. cbv iota.
  match goal with |- context [skip_ws (newline ++ "  " ++ ?x)] =>
      change (skip_ws (newline ++ "  " ++ x)) with (skip_ws x) end.
  destruct (tasks_text_starts "  " ("," ++ newline ++ "  ") t ts
                (newline ++ "]")) as [r Hr].
  rewrite Hr. change (skip_ws (String "{" r)) with (String "{" r).
  change (N_of_ascii "{" =? 93)%N with false. cbv iota.
  rewrite <- Hr.
  change (newline ++ "]") with (newline ++ "]" ++ "").
  rewrite parse_elements_tasks by (simpl in Hf; lia). reflexivity.
Qed.

End Roundtrip.

(** ** The two functions on sample texts *)

Section Samples.

(** A control character, a quote, a backslash, a line feed and a code unit
    above 127, as [JSON.stringify] writes them. *)
Example quote_body_escapes :
  quote_body (String "001" (String dquote (String backslash
               (String "010" (String "233" "/")))))
  = String backslash "u0001" ++ String backslash dq
    ++ String backslash (String backslash "")
    ++ String backslash "n" ++ String "233" "/".
Proof. reflexivity. Qed.

Example stringify_tasks_empty : stringify_tasks [] = "[]".
Proof. reflexivity. Qed.

Example stringify_task_text :
  stringify_task (mkTask "7" None true "d")
  = "{" ++ newline
    ++ "  " ++ dq ++ "id" ++ dq ++ ": " ++ dq ++ "7" ++ dq ++ "," ++ newline
    ++ "  " ++ dq ++ "completed" ++ dq ++ ": true," ++ newline
    ++ "  " ++ dq ++ "createdAt" ++ dq ++ ": " ++ dq ++ "d" ++ dq ++ newline
    ++ "}".
Proof. reflexivity. Qed.

(** Escapes, numbers, nesting and white space are read as JSON has them. *)
Example parse_accepts :
  parse (" [ 1 , -0.5e+2 , true , null , {} , "
         ++ dq ++ String backslash "u0041" ++ String backslash "n" ++ dq
         ++ " , { " ++ dq ++ "a" ++ dq ++ " : [ ] } ] " ++ newline)
  = Parsed (JArray [JNumber "1"; JNumber "-0.5e+2"; JBool true; JNull;
                    JObject []; JString [65; 10]%N;
                    JObject [([97]%N, JArray [])]]) "".
Proof. vm_compute. reflexivity. Qed.

(** A trailing comma, a leading zero, a bare word, an open string and an
    empty text are refused. *)
Example parse_refuses :
  map parse ["[1,]"; "01"; "[{oops"; String dquote "abc"; ""; "nul"; "1 2"]
  = [SyntaxError; SyntaxError; SyntaxError; SyntaxError; SyntaxError;
     SyntaxError; SyntaxError].
Proof. vm_compute. reflexivity. Qed.

End Samples.

(** ** From the parsed value back to the records *)

Section Decode.

Lemma latin1_units s : latin1 (units s) = Some s.
Proof.
  induction s as [|c s IH]; [reflexivity|].
  cbn [units latin1]. rewrite IH.
  pose proof (N_ascii_bounded c) as Hc. apply N.ltb_lt in Hc. rewrite Hc.
  rewrite ascii_N_embedding. reflexivity.
Qed.

Lemma asTask_task_json t : asTask (task_json t) = Some t.
Proof.
  destruct t as [i [ti|] c d]; unfold task_json; cbn [id title completed createdAt app asTask];
    change (is_key (units "id") "id") with true;
    change (is_key (units "title") "title") with true;
    change (is_key (units "completed") "completed") with true;
    change (is_key (units "createdAt") "createdAt") with true;
    cbv iota beta delta [andb]; rewrite !latin1_units; reflexivity.
Qed.

Lemma asTasks_task_json ts : asTasks (JArray (map task_json ts)) = Some ts.
Proof.
  cbn [asTasks]. induction ts as [|t ts IH]; [reflexivity|].
  cbn [map asTaskList]. rewrite asTask_task_json, IH. reflexivity.
Qed.

Lemma skip_ws_stringify_tasks ts : skip_ws (stringify_tasks ts) = stringify_tasks ts.
Proof. destruct ts; reflexivity. Qed.

(** [JSON.parse] of the text [JSON.stringify] wrote for a list of tasks. *)
Lemma parse_stringify_tasks ts :
  parse (stringify_tasks ts) = Parsed (JArray (map task_json ts)) "".
Proof.
  unfold parse. rewrite skip_ws_stringify_tasks.
  set (F := (2 * String.length (stringify_tasks ts) + 2)%nat).
  assert (H : parse_value F (stringify_tasks ts)
              = Parsed (JArray (map task_json ts)) "").
  { destruct (parse_value F (stringify_tasks ts)) eqn:E.
    - rewrite <- E.
      rewrite <- (parse_value_tasks ts (F + (List.length ts + 8))) by lia.
      symmetry. apply (parse_value_more_fuel F); [reflexivity| |lia].
      rewrite E. discriminate.
    - rewrite <- (parse_value_tasks ts (F + (List.length ts + 8))) by lia.
      symmetry. apply (parse_value_more_fuel F); [assumption|discriminate|lia].
    - exfalso. apply (proj1 (parse_enough_fuel F) (stringify_tasks ts));
        [unfold F; lia|assumption]. }
  rewrite H. reflexivity.
Qed.

End Decode.

(* ================================================================== *)
(** * Facts about the store *)

Section Store.

Lemma loadTasks_eq w : loadTasks w = (collection w, loaded w).
Proof. unfold collection, loaded. destruct (loadTasks w); reflexivity. Qed.

(** Loading changes nothing but the console. *)
Lemma loaded_frame w :
  file (loaded w) = file w /\ can_read (loaded w) = can_read w /\
  can_write (loaded w) = can_write w /\ clock (loaded w) = clock w /\
  reads (loaded w) = reads w.
Proof.
  unfold loaded, loadTasks.
  destruct (file w) as [data|] eqn:Ef; [|cbn; rewrite Ef; auto].
  destruct (can_read w) eqn:Er; [|cbn; rewrite Ef, Er; auto 6].
  destruct (parse data); cbn; rewrite ?Ef, ?Er; auto 6.
Qed.

(** What is loaded depends on the file and on its being readable only. *)
Lemma collection_congr w w' :
  file w = file w' -> can_read w = can_read w' -> collection w = collection w'.
Proof.
  unfold collection, loadTasks. intros <- <-.
  destruct (file w) as [data|]; [|reflexivity].
  destruct (can_read w); [|reflexivity].
  destruct (parse data); reflexivity.
Qed.

Lemma collection_loaded w : collection (loaded w) = collection w.
Proof. destruct (loaded_frame w) as (F & R & _). apply collection_congr; assumption. Qed.

(** A collection that is not empty was read from the file. *)
Lemma collection_readable w t ts : collection w = Some (t :: ts) -> can_read w = true.
Proof.
  unfold collection, loadTasks.
  destruct (file w) as [data|]; [|discriminate].
  destruct (can_read w); [reflexivity|discriminate].
Qed.

Lemma saveTasks_writable ts w :
  can_write w = true ->
  saveTasks ts w = (Some tt, set_file (stringify_tasks ts) w).
Proof. unfold saveTasks. intros ->. reflexivity. Qed.

(** Loading a file that [saveTasks] wrote. *)
Lemma loadTasks_set_file ts w :
  can_read w = true ->
  loadTasks (set_file (stringify_tasks ts) w)
  = (Some ts, set_file (stringify_tasks ts) w).
Proof.
  intros Hr. unfold loadTasks. cbn [file set_file can_read]. rewrite Hr.
  rewrite parse_stringify_tasks, asTasks_task_json. reflexivity.
Qed.

Lemma collection_set_file ts w :
  can_read w = true -> collection (set_file (stringify_tasks ts) w) = Some ts.
Proof. intros Hr. unfold collection. rewrite loadTasks_set_file by assumption. reflexivity. Qed.

Lemma bind_run {A B} (m : M A) (k : A -> M B) w a w' :
  m w = (Some a, w') -> bind m k w = k a w'.
Proof. unfold bind. intros ->. reflexivity. Qed.

Lemma loadTasks_run {B} (k : list Task -> M B) w ts :
  collection w = Some ts -> bind loadTasks k w = k ts (loaded w).
Proof. intros H. apply bind_run. rewrite loadTasks_eq, H. reflexivity. Qed.

End Store.

(* ================================================================== *)
(** * Facts about the array functions *)

Section Arrays.

Variable p : Task -> bool.

Lemma findIndex_none l :
  findIndex p l = None <-> (forall t, In t l -> p t = false).
Proof.
  induction l as [|x l IH]; simpl.
  - split; [intros _ t []|reflexivity].
  - destruct (p x) eqn:Ex.
    + split; [discriminate|]. intros H. rewrite (H x) in Ex by auto. discriminate.
    + destruct (findIndex p l).
      * split; [discriminate|]. intros H.
        assert (None = Some n :> option nat); [|discriminate].
        symmetry. apply IH. auto.
      * split; [|reflexivity]. intros _ t [<-|Ht]; [assumption|].
        apply IH; auto.
Qed.

(** The index found is that of the first element that satisfies [p]. *)
Lemma findIndex_some l n :
  findIndex p l = Some n ->
  exists l1 t l2, l = (l1 ++ t :: l2)%list /\ List.length l1 = n /\ p t = true /\
                  (forall x, In x l1 -> p x = false).
Proof.
  revert n. induction l as [|x l IH]; simpl; intros n H; [discriminate|].
  destruct (p x) eqn:Ex.
  - injection H as <-. exists [], x, l. repeat split; auto. intros y [].
  - destruct (findIndex p l) as [m|]; [|discriminate]. injection H as <-.
    destruct (IH m eq_refl) as (l1 & t & l2 & -> & <- & Ht & Hl1).
    exists (x :: l1), t, l2. repeat split; auto.
    intros y [<-|Hy]; auto.
Qed.

Lemma findIndex_first l1 t l2 :
  p t = true -> (forall x, In x l1 -> p x = false) ->
  findIndex p (l1 ++ t :: l2) = Some (List.length l1).
Proof.
  intros Ht. induction l1 as [|x l1 IH]; simpl; intros H.
  - rewrite Ht. reflexivity.
  - rewrite (H x) by auto. rewrite IH by auto. reflexivity.
Qed.

Lemma find_first l1 t l2 :
  p t = true -> (forall x, In x l1 -> p x = false) ->
  find p (l1 ++ t :: l2) = Some t.
Proof.
  intros Ht. induction l1 as [|x l1 IH]; simpl; intros H.
  - rewrite Ht. reflexivity.
  - rewrite (H x) by auto. apply IH. auto.
Qed.

Lemma find_absent l : (forall t, In t l -> p t = false) -> find p l = None.
Proof.
  induction l as [|x l IH]; simpl; intros H; [reflexivity|].
  rewrite (H x) by auto. apply IH. auto.
Qed.

Lemma update_at_middle f l1 (t : Task) l2 :
  update_at (List.length l1) f (l1 ++ t :: l2) = (l1 ++ f t :: l2)%list.
Proof. induction l1 as [|x l1 IH]; simpl; [reflexivity|]. rewrite IH. reflexivity. Qed.

Lemma nth_error_middle l1 (t : Task) l2 :
  nth_error (l1 ++ t :: l2) (List.length l1) = Some t.
Proof. induction l1 as [|x l1 IH]; simpl; auto. Qed.

Lemma splice1_middle l1 (t : Task) l2 :
  splice1 (List.length l1) (l1 ++ t :: l2) = ([t], (l1 ++ l2)%list).
Proof.
  unfold splice1. f_equal.
  - induction l1 as [|x l1 IH]; simpl; auto.
  - f_equal.
    + induction l1 as [|x l1 IH]; simpl; [reflexivity|]. rewrite IH. reflexivity.
    + induction l1 as [|x l1 IH]; simpl; auto.
Qed.

End Arrays.

(** [===] on two strings is their equality. *)
Lemma id_is_true i t : id_is (Some i) t = true <-> id t = i.
Proof. apply String.eqb_eq. Qed.

Lemma id_is_false i t : id_is (Some i) t = false <-> id t <> i.
Proof. apply String.eqb_neq. Qed.

(* ================================================================== *)
(** * Facts about numbers and dates *)

Section Dates.

Example toISOString_samples :
  map JsDate.toISOString [0; 1700000000000; 951782400000; -1]%Z
  = ["1970-01-01T00:00:00.000Z"; "2023-11-14T22:13:20.000Z";
     "2000-02-29T00:00:00.000Z"; "1969-12-31T23:59:59.999Z"].
Proof. vm_compute. reflexivity. Qed.

Lemma toString_nonempty z : JsDate.toString z <> "".
Proof.
  unfold JsDate.toString. destruct (Z.to_int z) as [d|d]; cbn; [|discriminate].
  destruct d; cbn; discriminate.
Qed.

Lemma append_nonempty a b : b <> "" -> a ++ b <> "".
Proof. destruct a; cbn; [auto|discriminate]. Qed.

Lemma toISOString_nonempty t : JsDate.toISOString t <> "".
Proof.
  unfold JsDate.toISOString.
  destruct (JsDate.civil_from_days (t / 86400000)) as [[y m] d].
  apply append_nonempty. discriminate.
Qed.

End Dates.

(* ================================================================== *)
(** * The task API on a typed store *)

Section TaskAPI.

Variable w : World.
Variable ts : list Task.
Hypothesis Hts : collection w = Some ts.

Lemma getTask_run i :
  getTask i w = (Some (find (id_is i) ts), loaded w).
Proof. unfold getTask. rewrite (loadTasks_run _ _ _ Hts). reflexivity. Qed.

Lemma completeTask_absent i :
  findIndex (id_is i) ts = None -> completeTask i w = (Some None, loaded w).
Proof.
  intros H. unfold completeTask. rewrite (loadTasks_run _ _ _ Hts), H. reflexivity.
Qed.

Lemma deleteTask_absent i :
  findIndex (id_is i) ts = None -> deleteTask i w = (Some None, loaded w).
Proof.
  intros H. unfold deleteTask. rewrite (loadTasks_run _ _ _ Hts), H. reflexivity.
Qed.

Lemma completeTask_present i l1 t l2 :
  ts = (l1 ++ t :: l2)%list -> id_is i t = true ->
  (forall x, In x l1 -> id_is i x = false) ->
  completeTask i w
  = (Some (Some (set_completed t)),
     snd (saveTasks (l1 ++ set_completed t :: l2) (loaded w))).
Proof.
  intros E Ht Hl1. unfold completeTask. rewrite (loadTasks_run _ _ _ Hts).
  rewrite E, (findIndex_first _ _ _ _ Ht Hl1), update_at_middle.
  unfold bind. destruct (saveTasks _ (loaded w)) as [[[]|] w'] eqn:Es.
  - unfold ret. rewrite nth_error_middle. reflexivity.
  - unfold saveTasks in Es. destruct (can_write (loaded w)); discriminate.
Qed.

Lemma deleteTask_present i l1 t l2 :
  ts = (l1 ++ t :: l2)%list -> id_is i t = true ->
  (forall x, In x l1 -> id_is i x = false) ->
  deleteTask i w = (Some (Some t), snd (saveTasks (l1 ++ l2) (loaded w))).
Proof.
  intros E Ht Hl1. unfold deleteTask. rewrite (loadTasks_run _ _ _ Hts).
  rewrite E, (findIndex_first _ _ _ _ Ht Hl1), splice1_middle.
  unfold bind. destruct (saveTasks _ (loaded w)) as [[[]|] w'] eqn:Es.
  - reflexivity.
  - unfold saveTasks in Es. destruct (can_write (loaded w)); discriminate.
Qed.

(** The collection after a successful write of [ts']. *)
Lemma collection_saved ts' :
  can_read w = true -> can_write w = true ->
  collection (snd (saveTasks ts' (loaded w))) = Some ts' /\
  file (snd (saveTasks ts' (loaded w))) = Some (stringify_tasks ts').
Proof.
  intros Hr Hw. destruct (loaded_frame w) as (_ & R & W & _).
  rewrite saveTasks_writable by congruence. cbn [snd].
  split; [apply collection_set_file; congruence | reflexivity].
Qed.

End TaskAPI.

(* ================================================================== *)
(** * The properties of the specification *)

Section Claims.

Lemma set_completed_idem t : set_completed (set_completed t) = set_completed t.
Proof. reflexivity. Qed.

(** A task with the id looked for has a first occurrence. *)
Lemma first_match ts i :
  (exists t, In t ts /\ id t = i) ->
  exists l1 t l2, ts = (l1 ++ t :: l2)%list /\ id t = i /\
                  (forall x, In x l1 -> id_is (Some i) x = false).
Proof.
  intros (t & Hin & Hid).
  destruct (findIndex (id_is (Some i)) ts) as [n|] eqn:E.
  - destruct (findIndex_some _ _ _ E) as (l1 & t' & l2 & -> & _ & Ht' & Hl1).
    exists l1, t', l2. repeat split; auto. apply id_is_true. assumption.
  - rewrite findIndex_none in E. specialize (E t Hin).
    apply id_is_false in E. contradiction.
Qed.

Lemma absent_findIndex ts i :
  (forall t, In t ts -> id t <> i) -> findIndex (id_is (Some i)) ts = None.
Proof. intros H. apply findIndex_none. intros t Ht. apply id_is_false. auto. Qed.

(** [createTask] on a typed store: the record it builds, and the world it
    leaves when the write succeeds. *)
Lemma createTask_run w ts title :
  collection w = Some ts ->
  let t := mkTask (JsDate.toString (clock w (reads w))) title false
                  (JsDate.toISOString (clock w (S (reads w)))) in
  createTask title w
  = (Some t, snd (saveTasks (ts ++ [t]) (tick (tick (loaded w))))).
Proof.
  intros H t. unfold createTask. rewrite (loadTasks_run _ _ _ H).
  destruct (loaded_frame w) as (_ & _ & _ & C & R).
  unfold bind, Date_now, ret. cbn [clock reads tick].
  rewrite C, R. fold t.
  unfold saveTasks. cbn [can_write tick].
  destruct (can_write (loaded w)); reflexivity.
Qed.

Lemma createTask_saved w ts t :
  can_read w = true -> can_write w = true ->
  let w' := snd (saveTasks (ts ++ [t]) (tick (tick (loaded w)))) in
  file w' = Some (stringify_tasks (ts ++ [t])) /\
  collection w' = Some (ts ++ [t])%list.
Proof.
  intros Hr Hw w'. destruct (loaded_frame w) as (_ & R & W & _).
  unfold w'. rewrite saveTasks_writable by (cbn; congruence). cbn [snd].
  split; [reflexivity|]. apply collection_set_file. cbn. congruence.
Qed.

(** C2.  On a store that reads and writes, [createTask] with a non-empty
    title returns a record that is not completed and has a non-empty [id]
    and a non-empty [createdAt]; the file then holds the loaded collection
    followed by exactly that record, and [listTasks] returns it with the
    record as its last element. *)
Theorem createTask_appends (w : World) (ts : list Task) (s : string) :
  s <> "" -> collection w = Some ts -> can_read w = true -> can_write w = true ->
  exists t w',
    createTask (Some s) w = (Some t, w') /\
    title t = Some s /\ completed t = false /\ id t <> "" /\ createdAt t <> "" /\
    file w' = Some (stringify_tasks (ts ++ [t])) /\
    collection w' = Some (ts ++ [t])%list /\
    fst (listTasks w') = Some (ts ++ [t])%list /\ In t (ts ++ [t]).
Proof.
  intros _ H Hr Hw. eexists. eexists. split; [apply createTask_run; exact H|].
  destruct (createTask_saved w ts
    (mkTask (JsDate.toString (clock w (reads w))) (Some s) false
            (JsDate.toISOString (clock w (S (reads w))))) Hr Hw) as (F & C).
  cbn [title completed id createdAt].
  repeat split; try assumption.
  - apply toString_nonempty.
  - apply toISOString_nonempty.
  - apply in_or_app. right. left. reflexivity.
Qed.

Lemma createTask_appends_witness :
  exists t w',
    createTask (Some "Buy milk") (world_of [bread]) = (Some t, w') /\
    title t = Some "Buy milk" /\ completed t = false /\ id t <> "" /\
    createdAt t <> "" /\
    file w' = Some (stringify_tasks ([bread] ++ [t])) /\
    collection w' = Some ([bread] ++ [t])%list /\
    fst (listTasks w') = Some ([bread] ++ [t])%list /\ In t ([bread] ++ [t]).
Proof.
  apply (createTask_appends (world_of [bread]) [bread] "Buy milk").
  - discriminate.
  - vm_compute. reflexivity.
  - reflexivity.
  - reflexivity.
Defined.


(** What the three lookups do on an id that no stored task has. *)
Lemma unknown_id_absent w ts i :
  collection w = Some ts -> (forall t, In t ts -> id t <> i) ->
  getTask (Some i) w = (Some None, loaded w) /\
  completeTask (Some i) w = (Some None, loaded w) /\
  deleteTask (Some i) w = (Some None, loaded w).
Proof.
  intros H Hno. pose proof (absent_findIndex ts i Hno) as Hidx.
  repeat split.
  - rewrite (getTask_run w ts H).
    rewrite (find_absent (id_is (Some i)) ts); [reflexivity|].
    apply findIndex_none. assumption.
  - apply (completeTask_absent w ts H). assumption.
  - apply (deleteTask_absent w ts H). assumption.
Qed.

(** C3.  On an id that no stored task has, [getTask], [completeTask] and
    [deleteTask] each return the not-found value ([undefined], [null],
    [null]) and leave the world [loadTasks] leaves: the file is the one
    before the call and holds the same collection. *)
Theorem unknown_id_not_found (w : World) (ts : list Task) (i : string) :
  collection w = Some ts -> (forall t, In t ts -> id t <> i) ->
  getTask (Some i) w = (Some None, loaded w) /\
  completeTask (Some i) w = (Some None, loaded w) /\
  deleteTask (Some i) w = (Some None, loaded w) /\
  file (loaded w) = file w /\ collection (loaded w) = Some ts.
Proof.
  intros H Hno. destruct (unknown_id_absent w ts i H Hno) as (G & C & D).
  repeat split; try assumption.
  - apply loaded_frame.
  - rewrite collection_loaded. assumption.
Qed.

Lemma unknown_id_not_found_witness :
  getTask (Some "42") (world_of [milk; bread])
    = (Some None, loaded (world_of [milk; bread])) /\
  completeTask (Some "42") (world_of [milk; bread])
    = (Some None, loaded (world_of [milk; bread])) /\
  deleteTask (Some "42") (world_of [milk; bread])
    = (Some None, loaded (world_of [milk; bread])) /\
  file (loaded (world_of [milk; bread])) = file (world_of [milk; bread]) /\
  collection (loaded (world_of [milk; bread])) = Some [milk; bread].
Proof.
  apply (unknown_id_not_found (world_of [milk; bread]) [milk; bread] "42").
  - vm_compute. reflexivity.
  - intros t [<-|[<-|[]]]; discriminate.
Defined.

(** What [completeTask] does on an id that is stored, the first task with
    it being [t] between [l1] and [l2]. *)
Lemma completeTask_first w l1 t l2 i :
  collection w = Some (l1 ++ t :: l2)%list -> id t = i ->
  (forall x, In x l1 -> id_is (Some i) x = false) -> can_write w = true ->
  exists w',
    completeTask (Some i) w = (Some (Some (set_completed t)), w') /\
    file w' = Some (stringify_tasks (l1 ++ set_completed t :: l2)) /\
    collection w' = Some (l1 ++ set_completed t :: l2)%list /\
    can_write w' = true.
Proof.
  intros H Hid Hl1 Hw.
  pose proof (collection_readable w) as Hr.
  assert (can_read w = true) as R.
  { destruct l1; cbn in H; eapply Hr; exact H. }
  eexists. split.
  - apply (completeTask_present w _ H (Some i) l1 t l2);
      [reflexivity | apply id_is_true; assumption | assumption].
  - destruct (collection_saved w (l1 ++ set_completed t :: l2) R Hw) as (C & F).
    repeat split; try assumption.
    destruct (loaded_frame w) as (_ & _ & W & _).
    rewrite saveTasks_writable by congruence. cbn. congruence.
Qed.

Lemma deleteTask_first w l1 t l2 i :
  collection w = Some (l1 ++ t :: l2)%list -> id t = i ->
  (forall x, In x l1 -> id_is (Some i) x = false) -> can_write w = true ->
  exists w',
    deleteTask (Some i) w = (Some (Some t), w') /\
    file w' = Some (stringify_tasks (l1 ++ l2)) /\
    collection w' = Some (l1 ++ l2)%list.
Proof.
  intros H Hid Hl1 Hw.
  assert (can_read w = true) as R.
  { destruct l1; cbn in H; eapply collection_readable; exact H. }
  eexists. split.
  - apply (deleteTask_present w _ H (Some i) l1 t l2);
      [reflexivity | apply id_is_true; assumption | assumption].
  - destruct (collection_saved w (l1 ++ l2) R Hw) as (C & F). split; assumption.
Qed.

(** C4.  On an id that is stored and a disk that writes, [completeTask]
    returns a record with that id and [completed = true], which is then
    the first record with that id in the collection; a second call returns
    the same record and leaves the file and the collection as the first
    call left them. *)
Theorem completeTask_idempotent (w : World) (ts : list Task) (i : string) :
  collection w = Some ts -> (exists t, In t ts /\ id t = i) ->
  can_write w = true ->
  exists t ts1 w1 w2,
    completeTask (Some i) w = (Some (Some t), w1) /\
    id t = i /\ completed t = true /\
    collection w1 = Some ts1 /\ find (id_is (Some i)) ts1 = Some t /\
    completeTask (Some i) w1 = (Some (Some t), w2) /\
    file w2 = file w1 /\ collection w2 = Some ts1.
Proof.
  intros H Hex Hw.
  destruct (first_match ts i Hex) as (l1 & t & l2 & -> & Hid & Hl1).
  destruct (completeTask_first w l1 t l2 i H Hid Hl1 Hw) as (w1 & R1 & F1 & C1 & W1).
  destruct (completeTask_first w1 l1 (set_completed t) l2 i C1 Hid Hl1 W1)
    as (w2 & R2 & F2 & C2 & _).
  rewrite set_completed_idem in R2, F2, C2.
  exists (set_completed t), (l1 ++ set_completed t :: l2)%list, w1, w2.
  repeat split; try assumption.
  - apply find_first; [apply id_is_true; assumption | assumption].
  - congruence.
Qed.

Lemma completeTask_idempotent_witness :
  exists t ts1 w1 w2,
    completeTask (Some "1700000000000") (world_of [bread; milk])
      = (Some (Some t), w1) /\
    id t = "1700000000000" /\ completed t = true /\
    collection w1 = Some ts1 /\
    find (id_is (Some "1700000000000")) ts1 = Some t /\
    completeTask (Some "1700000000000") w1 = (Some (Some t), w2) /\
    file w2 = file w1 /\ collection w2 = Some ts1.
Proof.
  apply (completeTask_idempotent (world_of [bread; milk]) [bread; milk]).
  - vm_compute. reflexivity.
  - exists milk. split; [right; left|]; reflexivity.
  - reflexivity.
Defined.


(** C5.  On an id that is stored and a disk that writes, [deleteTask]
    returns the first record with that id and the collection afterwards is
    the one before without that one record, in the same order, so one
    shorter; when no other record has the id, [getTask] no longer finds
    it. *)
Theorem deleteTask_removes_first (w : World) (ts : list Task) (i : string) :
  collection w = Some ts -> (exists t, In t ts /\ id t = i) ->
  can_write w = true ->
  exists l1 t l2 w',
    ts = (l1 ++ t :: l2)%list /\ id t = i /\ (forall x, In x l1 -> id x <> i) /\
    deleteTask (Some i) w = (Some (Some t), w') /\
    collection w' = Some (l1 ++ l2)%list /\
    S (List.length (l1 ++ l2)) = List.length ts /\
    ((forall x, In x l2 -> id x <> i) -> fst (getTask (Some i) w') = Some None).
Proof.
  intros H Hex Hw.
  destruct (first_match ts i Hex) as (l1 & t & l2 & -> & Hid & Hl1).
  destruct (deleteTask_first w l1 t l2 i H Hid Hl1 Hw) as (w' & R & F & C).
  exists l1, t, l2, w'. repeat split; try assumption.
  - intros x Hx. apply id_is_false. auto.
  - rewrite !length_app. cbn. lia.
  - intros Hl2. rewrite (getTask_run w' _ C). cbn [fst]. f_equal.
    apply find_absent. intros x Hx. apply id_is_false.
    apply in_app_or in Hx. destruct Hx as [Hx|Hx]; [|auto].
    apply id_is_false. auto.
Qed.

Lemma deleteTask_removes_first_witness :
  exists l1 t l2 w',
    [bread; milk; bread] = (l1 ++ t :: l2)%list /\ id t = "1700000000000" /\
    (forall x, In x l1 -> id x <> "1700000000000") /\
    deleteTask (Some "1700000000000") (world_of [bread; milk; bread])
      = (Some (Some t), w') /\
    collection w' = Some (l1 ++ l2)%list /\
    S (List.length (l1 ++ l2)) = List.length [bread; milk; bread] /\
    ((forall x, In x l2 -> id x <> "1700000000000") ->
     fst (getTask (Some "1700000000000") w') = Some None).
Proof.
  apply (deleteTask_removes_first (world_of [bread; milk; bread])).
  - vm_compute. reflexivity.
  - exists milk. split; [right; left|]; reflexivity.
  - reflexivity.
Defined.

(** C6.  [loadTasks] returns the empty list and writes nothing to the
    console when the file does not exist; when the file exists and
    [JSON.parse] throws on its text, or reading it throws, it writes one
    line to the console and returns the empty list.  In no case does it
    change the file. *)
Theorem loadTasks_fail_soft (w : World) :
  (file w = None -> loadTasks w = (Some [], w)) /\
  (forall data, file w = Some data -> can_read w = true ->
     parse data = SyntaxError ->
     loadTasks w = (Some [], console_error "Error loading tasks:" w)) /\
  (forall data, file w = Some data -> can_read w = false ->
     loadTasks w = (Some [], console_error "Error loading tasks:" w)) /\
  file (loaded w) = file w.
Proof.
  unfold loadTasks. repeat split.
  - intros ->. reflexivity.
  - intros data -> -> ->. reflexivity.
  - intros data -> ->. reflexivity.
  - apply loaded_frame.
Qed.

Lemma loadTasks_fail_soft_witness :
  loadTasks fresh_world = (Some [], fresh_world) /\
  loadTasks (mkWorld (Some "[{oops") true true sample_clock 0 [])
  = (Some [],
     mkWorld (Some "[{oops") true true sample_clock 0 ["Error loading tasks:"]).
Proof.
  split.
  - apply (proj1 (loadTasks_fail_soft fresh_world)). reflexivity.
  - apply (proj1 (proj2 (loadTasks_fail_soft
                    (mkWorld (Some "[{oops") true true sample_clock 0 [])))
             "[{oops"); reflexivity.
Defined.

(** C7.  On a disk that writes and reads, [saveTasks] followed by
    [loadTasks] returns the list that was saved, record by record and in
    the same order. *)
Theorem save_load_roundtrip (w : World) (ts : list Task) :
  can_write w = true -> can_read w = true ->
  (saveTasks ts ;;; loadTasks) w
  = (Some ts, set_file (stringify_tasks ts) w).
Proof.
  intros Hw Hr. unfold bind. rewrite saveTasks_writable by assumption.
  apply loadTasks_set_file. assumption.
Qed.

Lemma save_load_roundtrip_witness :
  (saveTasks [milk; bread] ;;; loadTasks) fresh_world
  = (Some [milk; bread], set_file (stringify_tasks [milk; bread]) fresh_world).
Proof.
  apply (save_load_roundtrip fresh_world [milk; bread]); reflexivity.
Defined.

(** C8.  An id matches a record exactly when the two strings are equal; and
    when [t] is the first record with the id in the stored list, between
    [l1] and [l2], whatever [l2] holds: [getTask] returns [t];
    [completeTask] returns a record [t'] that has [completed = true] and
    the [id], [title] and [createdAt] of [t], and the store then holds
    [t'] where [t] was, between the same [l1] and [l2]; [deleteTask]
    removes [t] and returns it. *)
Theorem first_match_wins (w : World) (l1 l2 : list Task) (t : Task) (i : string) :
  collection w = Some (l1 ++ t :: l2)%list -> id t = i ->
  (forall x, In x l1 -> id x <> i) -> can_write w = true ->
  (forall x j, id_is (Some j) x = true <-> id x = j) /\
  fst (getTask (Some i) w) = Some (Some t) /\
  (exists t' w',
     completeTask (Some i) w = (Some (Some t'), w') /\
     completed t' = true /\
     id t' = id t /\ title t' = title t /\ createdAt t' = createdAt t /\
     collection w' = Some (l1 ++ t' :: l2)%list /\
     nth_error (l1 ++ t' :: l2) (List.length l1) = Some t') /\
  (exists w', deleteTask (Some i) w = (Some (Some t), w') /\
              collection w' = Some (l1 ++ l2)%list).
Proof.
  intros H Hid Hl1 Hw.
  assert (Hl1' : forall x, In x l1 -> id_is (Some i) x = false).
  { intros x Hx. apply id_is_false. auto. }
  split; [intros x j; apply id_is_true|]. split; [|split].
  - rewrite (getTask_run w _ H). cbn [fst]. f_equal.
    apply find_first; [apply id_is_true; assumption | assumption].
  - destruct (completeTask_first w l1 t l2 i H Hid Hl1' Hw) as (w' & R & _ & C & _).
    exists (set_completed t), w'.
    split; [exact R|]. split; [reflexivity|]. split; [reflexivity|].
    split; [reflexivity|]. split; [reflexivity|]. split; [exact C|].
    apply nth_error_middle.
  - destruct (deleteTask_first w l1 t l2 i H Hid Hl1' Hw) as (w' & R & _ & C).
    exists w'. split; assumption.
Qed.


Lemma first_match_wins_witness :
  (forall x j, id_is (Some j) x = true <-> id x = j) /\
  fst (getTask (Some "1700000000000") (world_of [bread; milk; milk_again]))
    = Some (Some milk) /\
  (exists t' w',
     completeTask (Some "1700000000000") (world_of [bread; milk; milk_again])
       = (Some (Some t'), w') /\
     completed t' = true /\
     id t' = id milk /\ title t' = title milk /\
     createdAt t' = createdAt milk /\
     collection w' = Some ([bread] ++ t' :: [milk_again])%list /\
     nth_error ([bread] ++ t' :: [milk_again]) (List.length [bread]) = Some t') /\
  (exists w',
     deleteTask (Some "1700000000000") (world_of [bread; milk; milk_again])
       = (Some (Some milk), w') /\
     collection w' = Some ([bread] ++ [milk_again])%list).
Proof.
  apply (first_match_wins (world_of [bread; milk; milk_again])
           [bread] [milk_again] milk "1700000000000").
  - vm_compute. reflexivity.
  - reflexivity.
  - intros x [<-|[]]. discriminate.
  - reflexivity.
Defined.

Lemma nth_error_off_middle (l1 l2 : list Task) a b n :
  n <> List.length l1 ->
  nth_error (l1 ++ a :: l2) n = nth_error (l1 ++ b :: l2) n.
Proof.
  revert n. induction l1 as [|x l1 IH]; intros [|n] Hn; cbn in *;
    try reflexivity; try contradiction.
  apply IH. intros ->. apply Hn. reflexivity.
Qed.

(** C10.  On an id that is stored and a disk that writes, [completeTask]
    changes the record at the position of the first match and only its
    [completed] field: [id], [title] and [createdAt] stay, the list keeps
    its length, and every other position holds the record it held. *)
Theorem completeTask_frame (w : World) (ts : list Task) (i : string) :
  collection w = Some ts -> (exists t, In t ts /\ id t = i) ->
  can_write w = true ->
  exists k t t' ts' w',
    findIndex (id_is (Some i)) ts = Some k /\ nth_error ts k = Some t /\
    completeTask (Some i) w = (Some (Some t'), w') /\
    collection w' = Some ts' /\
    id t' = id t /\ title t' = title t /\ createdAt t' = createdAt t /\
    completed t' = true /\
    List.length ts' = List.length ts /\
    nth_error ts' k = Some t' /\
    (forall n, n <> k -> nth_error ts' n = nth_error ts n).
Proof.
  intros H Hex Hw.
  destruct (first_match ts i Hex) as (l1 & t & l2 & -> & Hid & Hl1).
  destruct (completeTask_first w l1 t l2 i H Hid Hl1 Hw) as (w' & R & _ & C & _).
  exists (List.length l1), t, (set_completed t),
         (l1 ++ set_completed t :: l2)%list, w'.
  repeat split; try assumption.
  - apply findIndex_first; [apply id_is_true; assumption | assumption].
  - apply nth_error_middle.
  - rewrite !length_app. reflexivity.
  - apply nth_error_middle.
  - intros n Hn. apply nth_error_off_middle. assumption.
Qed.

Lemma completeTask_frame_witness :
  exists k t t' ts' w',
    findIndex (id_is (Some "1700000000000")) [bread; milk; milk_again] = Some k /\
    nth_error [bread; milk; milk_again] k = Some t /\
    completeTask (Some "1700000000000") (world_of [bread; milk; milk_again])
      = (Some (Some t'), w') /\
    collection w' = Some ts' /\
    id t' = id t /\ title t' = title t /\ createdAt t' = createdAt t /\
    completed t' = true /\
    List.length ts' = List.length [bread; milk; milk_again] /\
    nth_error ts' k = Some t' /\
    (forall n, n <> k -> nth_error ts' n = nth_error [bread; milk; milk_again] n).
Proof.
  apply (completeTask_frame (world_of [bread; milk; milk_again])).
  - vm_compute. reflexivity.
  - exists milk. split; [right; left|]; reflexivity.
  - reflexivity.
Defined.

(** The HTTP adapter answers a [POST] without a title, or with the empty
    title, before it calls the task API: the world is untouched. *)
Lemma http_post_rejects_untitled w title :
  title = None \/ title = Some "" ->
  Http.handle (Http.POST_tasks title) w
  = (Some (Http.mkResponse 400 (Http.Failure "Title is required")), w).
Proof. intros [->| ->]; reflexivity. Qed.

(** C9.  On a typed store the HTTP adapter answers: the list with status
    200, the stored tasks and their number; a [POST] with a non-empty title
    with 201 and the new record; a [POST] with no title or the empty title
    with 400 and the error [Title is required]; [GET], [PATCH] and [DELETE]
    on an id no task has with 404 and the error [Task not found]. *)
Theorem http_status_mapping (w : World) (ts : list Task) :
  collection w = Some ts ->
  Http.handle Http.GET_tasks w
    = (Some (Http.mkResponse 200 (Http.Listing ts (List.length ts))), loaded w) /\
  (forall s, s <> "" ->
     exists t w',
       Http.handle (Http.POST_tasks (Some s)) w
         = (Some (Http.mkResponse 201 (Http.Single t)), w') /\
       title t = Some s /\ completed t = false) /\
  (forall title, title = None \/ title = Some "" ->
     Http.handle (Http.POST_tasks title) w
       = (Some (Http.mkResponse 400 (Http.Failure "Title is required")), w)) /\
  (forall i, (forall t, In t ts -> id t <> i) ->
     Http.handle (Http.GET_task i) w
       = (Some (Http.mkResponse 404 (Http.Failure "Task not found")), loaded w) /\
     Http.handle (Http.PATCH_complete i) w
       = (Some (Http.mkResponse 404 (Http.Failure "Task not found")), loaded w) /\
     Http.handle (Http.DELETE_task i) w
       = (Some (Http.mkResponse 404 (Http.Failure "Task not found")), loaded w)) /\
  Http.success (Http.Listing ts (List.length ts)) = true /\
  (forall t, Http.success (Http.Single t) = true) /\
  (forall e, Http.success (Http.Failure e) = false).
Proof.
  intros H. split; [|split; [|split; [|split; [|split; [|split]]]]];
    try reflexivity.
  - cbn [Http.handle]. unfold Http.get_tasks, listTasks.
    rewrite (loadTasks_run _ _ _ H). reflexivity.
  - intros s Hs. cbn [Http.handle]. unfold Http.post_tasks.
    assert (Http.not_title (Some s) = false) as ->.
    { destruct s; [contradiction|reflexivity]. }
    eexists. eexists. split.
    + unfold bind at 1. rewrite (createTask_run w ts (Some s) H). reflexivity.
    + split; reflexivity.
  - apply http_post_rejects_untitled.
  - intros i Hno. destruct (unknown_id_absent w ts i H Hno) as (G & C & D).
    cbn [Http.handle]. unfold Http.get_task, Http.patch_complete, Http.delete_task.
    unfold bind. rewrite G, C, D. repeat split.
Qed.

Lemma http_status_mapping_witness :
  Http.handle Http.GET_tasks (world_of [milk; bread])
    = (Some (Http.mkResponse 200 (Http.Listing [milk; bread] 2)),
       loaded (world_of [milk; bread])) /\
  Http.handle (Http.POST_tasks (Some "")) (world_of [milk; bread])
    = (Some (Http.mkResponse 400 (Http.Failure "Title is required")),
       world_of [milk; bread]) /\
  Http.handle (Http.DELETE_task "42") (world_of [milk; bread])
    = (Some (Http.mkResponse 404 (Http.Failure "Task not found")),
       loaded (world_of [milk; bread])).
Proof.
  assert (H : collection (world_of [milk; bread]) = Some [milk; bread])
    by (vm_compute; reflexivity).
  destruct (http_status_mapping (world_of [milk; bread]) [milk; bread] H)
    as (L & _ & B & N & _).
  split; [exact L|]. split; [apply B; right; reflexivity|].
  apply N. intros t [<-|[<-|[]]]; discriminate.
Defined.

(** The MCP adapter on [create_task], whatever the title is: the record is
    built and the answer carries no error flag. *)
Lemma mcp_create_task_run w ts (given : option string) :
  collection w = Some ts ->
  exists t w',
    Mcp.call_tool (create_task_call given) w
    = (Some (Mcp.ok ("Task created successfully:" ++ newline ++ stringify_task t)),
       w') /\
    title t = given /\
    (can_read w = true -> can_write w = true ->
     collection w' = Some (ts ++ [t])%list).
Proof.
  intros H. eexists. eexists. split; [|split].
  - unfold Mcp.call_tool, create_task_call.
    cbn [Mcp.arguments Mcp.name Mcp.arg_title].
    change ("create_task" =? "create_task") with true. cbv iota.
    unfold bind at 1. rewrite (createTask_run w ts given H). reflexivity.
  - reflexivity.
  - intros Hr Hw. apply createTask_saved; assumption.
Qed.

(** C1, as the MCP adapter has it.  The handler of [create_task] passes
    [args.title] to [createTask] unchecked: on a first run, a call with the
    empty title and a call with no title each answer without the error
    flag and leave a stored record, where the HTTP adapter answers 400 and
    stores nothing ([http_post_rejects_untitled]). *)
Theorem mcp_create_task_takes_untitled :
  collection fresh_world = Some [] /\
  option_map Mcp.isError (fst (Mcp.call_tool (create_task_call (Some "")) fresh_world))
    = Some false /\
  collection (snd (Mcp.call_tool (create_task_call (Some "")) fresh_world))
    = Some [mkTask "1700000000000" (Some "") false "2023-11-14T22:13:20.001Z"] /\
  option_map Mcp.isError (fst (Mcp.call_tool (create_task_call None) fresh_world))
    = Some false /\
  collection (snd (Mcp.call_tool (create_task_call None) fresh_world))
    = Some [mkTask "1700000000000" None false "2023-11-14T22:13:20.001Z"].
Proof. vm_compute. repeat split. Qed.

(** ** The scenarios of the specification *)

(** Create [Buy milk], list, complete, delete, list: over HTTP on a first
    run. *)
Example http_buy_milk_scenario :
  let created := mkTask "1700000000000" (Some "Buy milk") false
                        "2023-11-14T22:13:20.001Z" in
  fst ((r1 <- Http.handle (Http.POST_tasks (Some "Buy milk")) ;;
        r2 <- Http.handle Http.GET_tasks ;;
        r3 <- Http.handle (Http.PATCH_complete "1700000000000") ;;
        r4 <- Http.handle (Http.DELETE_task "1700000000000") ;;
        r5 <- Http.handle Http.GET_tasks ;;
        ret [r1; r2; r3; r4; r5]) fresh_world)
  = Some [Http.mkResponse 201 (Http.Single created);
          Http.mkResponse 200 (Http.Listing [created] 1);
          Http.mkResponse 200 (Http.Single (set_completed created));
          Http.mkResponse 200 (Http.Single (set_completed created));
          Http.mkResponse 200 (Http.Listing [] 0)].
Proof. vm_compute. reflexivity. Qed.

(** [get_task] with an unknown id: an answer with the error flag and the
    id in its text. *)
Example mcp_get_unknown_scenario :
  fst (Mcp.call_tool (Mcp.mkRequest "get_task" (Some (Mcp.mkArgs None (Some "42"))))
                     (world_of [milk; bread]))
  = Some (Mcp.mkResult "Task with ID 42 not found" true).
Proof. vm_compute. reflexivity. Qed.

End Claims.

(* ================================================================== *)
(** * Further properties of the program *)

Section Persistence.

Lemma saveTasks_unwritable ts w :
  can_write w = false ->
  saveTasks ts w = (Some tt, console_error "Error saving tasks:" w).
Proof. unfold saveTasks. intros ->. reflexivity. Qed.

(** A write on a typed store leaves a typed store, whether it succeeds or
    not. *)
Lemma saveTasks_typed ts' w ts :
  collection w = Some ts ->
  exists ts'', collection (snd (saveTasks ts' w)) = Some ts''.
Proof.
  intros H. unfold saveTasks. destruct (can_write w); cbn [snd].
  - destruct (can_read w) eqn:R.
    + exists ts'. apply collection_set_file. assumption.
    + exists []. unfold collection, loadTasks. cbn. rewrite R. reflexivity.
  - exists ts. rewrite <- H. apply collection_congr; reflexivity.
Qed.

Lemma collection_tick w : collection (tick w) = collection w.
Proof. apply collection_congr; reflexivity. Qed.

(** What a failed write leaves: the file and the collection as they were,
    one more line on the console. *)
Lemma failed_write w w0 ts ts' :
  collection w = Some ts -> can_write w0 = false ->
  file w0 = file w -> can_read w0 = can_read w ->
  let w' := snd (saveTasks ts' w0) in
  file w' = file w /\ collection w' = Some ts /\
  console w' = (console w0 ++ ["Error saving tasks:"])%list.
Proof.
  intros H Hw F R w'. unfold w'. rewrite saveTasks_unwritable by assumption.
  cbn [snd]. repeat split.
  - assumption.
  - rewrite <- H. apply collection_congr; assumption.
Qed.

(** X1.  When the write fails, [createTask] still returns the new record
    and the HTTP adapter still answers 201 with it, but the file is the
    one before the call, the collection does not hold the record, and the
    only trace is one line on the console. *)
Theorem createTask_write_failure (w : World) (ts : list Task) (s : string) :
  collection w = Some ts -> can_write w = false -> s <> "" ->
  exists t w',
    createTask (Some s) w = (Some t, w') /\
    Http.handle (Http.POST_tasks (Some s)) w
      = (Some (Http.mkResponse 201 (Http.Single t)), w') /\
    title t = Some s /\
    file w' = file w /\ collection w' = Some ts /\
    console w' = (console (loaded w) ++ ["Error saving tasks:"])%list.
Proof.
  intros H Hw Hs.
  destruct (loaded_frame w) as (F & R & W & _).
  pose proof (createTask_run w ts (Some s) H) as Hrun. cbv zeta in Hrun.
  eexists. eexists. split; [exact Hrun|]. split; [|split; [reflexivity|]].
  - cbn [Http.handle]. unfold Http.post_tasks.
    assert (Http.not_title (Some s) = false) as ->
      by (destruct s; [contradiction|reflexivity]).
    unfold bind at 1. rewrite Hrun. reflexivity.
  - apply (failed_write w (tick (tick (loaded w))) ts); cbn; congruence.
Qed.

Lemma createTask_write_failure_witness :
  exists t w',
    createTask (Some "Buy milk")
      (mkWorld (Some (stringify_tasks [bread])) true false sample_clock 0 [])
      = (Some t, w') /\
    Http.handle (Http.POST_tasks (Some "Buy milk"))
      (mkWorld (Some (stringify_tasks [bread])) true false sample_clock 0 [])
      = (Some (Http.mkResponse 201 (Http.Single t)), w') /\
    title t = Some "Buy milk" /\
    file w' = Some (stringify_tasks [bread]) /\ collection w' = Some [bread] /\
    console w' = ["Error saving tasks:"].
Proof.
  apply (createTask_write_failure
           (mkWorld (Some (stringify_tasks [bread])) true false sample_clock 0 [])
           [bread] "Buy milk").
  - vm_compute. reflexivity.
  - reflexivity.
  - discriminate.
Defined.

(** X2.  When the write fails (it throws before the file is touched),
    [completeTask] on a stored id still returns a record with
    [completed = true] and the [id], [title] and [createdAt] of the first
    match [t], and [deleteTask] still returns [t] as removed; but the file
    is the one before the call, and [getTask] afterwards returns [t] as
    it was before. *)
Theorem mutation_write_failure (w : World) (l1 l2 : list Task) (t : Task)
    (i : string) :
  collection w = Some (l1 ++ t :: l2)%list -> id t = i ->
  (forall x, In x l1 -> id x <> i) -> can_write w = false ->
  (exists t' w',
     completeTask (Some i) w = (Some (Some t'), w') /\
     completed t' = true /\
     id t' = id t /\ title t' = title t /\ createdAt t' = createdAt t /\
     file w' = file w /\
     fst (getTask (Some i) w') = Some (Some t)) /\
  (exists w', deleteTask (Some i) w = (Some (Some t), w') /\
              file w' = file w /\
              fst (getTask (Some i) w') = Some (Some t)).
Proof.
  intros H Hid Hl1 Hw.
  assert (Hl1' : forall x, In x l1 -> id_is (Some i) x = false).
  { intros x Hx. apply id_is_false. auto. }
  assert (Ht : id_is (Some i) t = true) by (apply id_is_true; assumption).
  destruct (loaded_frame w) as (F & R & W & _).
  assert (G : forall w', collection w' = Some (l1 ++ t :: l2)%list ->
                         fst (getTask (Some i) w') = Some (Some t)).
  { intros w' C. rewrite (getTask_run w' _ C). cbn [fst]. f_equal.
    apply find_first; assumption. }
  split.
  - exists (set_completed t). eexists.
    split; [apply (completeTask_present w _ H (Some i) l1 t l2);
            [reflexivity|assumption|assumption]|].
    split; [reflexivity|]. split; [reflexivity|]. split; [reflexivity|].
    split; [reflexivity|].
    destruct (failed_write w (loaded w) (l1 ++ t :: l2)
                (l1 ++ set_completed t :: l2) H) as (F' & C' & _);
      try congruence.
    split; [exact F'|]. apply G. exact C'.
  - eexists. split; [apply (deleteTask_present w _ H (Some i) l1 t l2);
                     [reflexivity|assumption|assumption]|].
    destruct (failed_write w (loaded w) (l1 ++ t :: l2) (l1 ++ l2) H)
      as (F' & C' & _); try congruence.
    split; [exact F'|]. apply G. exact C'.
Qed.

Lemma mutation_write_failure_witness :
  (exists t' w',
     completeTask (Some "1700000000000")
       (mkWorld (Some (stringify_tasks [bread; milk])) true false sample_clock 0 [])
       = (Some (Some t'), w') /\
     completed t' = true /\
     id t' = id milk /\ title t' = title milk /\
     createdAt t' = createdAt milk /\
     file w' = Some (stringify_tasks [bread; milk]) /\
     fst (getTask (Some "1700000000000") w') = Some (Some milk)) /\
  (exists w',
     deleteTask (Some "1700000000000")
       (mkWorld (Some (stringify_tasks [bread; milk])) true false sample_clock 0 [])
       = (Some (Some milk), w') /\
     file w' = Some (stringify_tasks [bread; milk]) /\
     fst (getTask (Some "1700000000000") w') = Some (Some milk)).
Proof.
  apply (mutation_write_failure
           (mkWorld (Some (stringify_tasks [bread; milk])) true false sample_clock 0 [])
           [bread] [] milk "1700000000000").
  - vm_compute. reflexivity.
  - reflexivity.
  - intros x [<-|[]]. discriminate.
  - reflexivity.
Defined.

End Persistence.

Section Outcomes.

Lemma same_disk_tick w0 w : same_disk w0 w -> same_disk (tick w0) w.
Proof. intros (F & R & W & C). repeat split; assumption. Qed.

Lemma same_disk_refl w : same_disk w w.
Proof. repeat split. Qed.

Lemma collection_unreadable w : can_read w = false -> collection w = Some [].
Proof.
  unfold collection, loadTasks. intros ->. destruct (file w); reflexivity.
Qed.

(** The three mutating operations and the two reading ones, on a typed
    store: each returns, and leaves an [outcome_world]. *)
Lemma createTask_outcome w ts given :
  collection w = Some ts ->
  exists t w', createTask given w = (Some t, w') /\ title t = given /\
               completed t = false /\ outcome_world w ts w'.
Proof.
  intros H. pose proof (createTask_run w ts given H) as Hrun. cbv zeta in Hrun.
  eexists. eexists. split; [exact Hrun|]. split; [reflexivity|].
  split; [reflexivity|].
  apply Written.
  - apply same_disk_tick, same_disk_tick, same_disk_refl.
  - apply Appended. reflexivity.
Qed.

Lemma getTask_outcome w ts i :
  collection w = Some ts ->
  getTask i w = (Some (find (id_is i) ts), loaded w) /\
  outcome_world w ts (loaded w).
Proof. intros H. split; [apply (getTask_run w ts H) | apply Read_only]. Qed.

Lemma completeTask_outcome w ts i :
  collection w = Some ts ->
  exists r w', completeTask i w = (Some r, w') /\ outcome_world w ts w' /\
               (r = None <-> findIndex (id_is i) ts = None).
Proof.
  intros H. destruct (findIndex (id_is i) ts) as [n|] eqn:E.
  - destruct (findIndex_some _ _ _ E) as (l1 & t & l2 & Hts & _ & Ht & Hl1).
    eexists. eexists. split; [|split].
    + apply (completeTask_present w ts H i l1 t l2); assumption.
    + rewrite Hts. apply Written; [apply same_disk_refl | apply Completed].
    + split; discriminate.
  - exists None, (loaded w). split; [|split].
    + apply (completeTask_absent w ts H); assumption.
    + apply Read_only.
    + split; reflexivity.
Qed.

Lemma deleteTask_outcome w ts i :
  collection w = Some ts ->
  exists r w', deleteTask i w = (Some r, w') /\ outcome_world w ts w' /\
               (r = None <-> findIndex (id_is i) ts = None).
Proof.
  intros H. destruct (findIndex (id_is i) ts) as [n|] eqn:E.
  - destruct (findIndex_some _ _ _ E) as (l1 & t & l2 & Hts & _ & Ht & Hl1).
    eexists. eexists. split; [|split].
    + apply (deleteTask_present w ts H i l1 t l2); assumption.
    + rewrite Hts. apply Written; [apply same_disk_refl | apply Removed].
    + split; discriminate.
  - exists None, (loaded w). split; [|split].
    + apply (deleteTask_absent w ts H); assumption.
    + apply Read_only.
    + split; reflexivity.
Qed.

(** An [outcome_world] of a typed store holds a typed store, one [change]
    away. *)
Lemma outcome_typed w ts w' :
  collection w = Some ts -> outcome_world w ts w' ->
  exists ts', collection w' = Some ts' /\ change ts ts'.
Proof.
  intros H [| |ts' w0 (F & R & W & C) Hch].
  - exists ts. split; [assumption | apply Unchanged].
  - exists ts. split; [rewrite collection_loaded; assumption | apply Unchanged].
  - destruct (loaded_frame w) as (F' & R' & _).
    unfold saveTasks. destruct (can_write w0); cbn [snd].
    + destruct (can_read w0) eqn:Er.
      * exists ts'. split; [apply collection_set_file; assumption | assumption].
      * exists []. split.
        -- apply collection_unreadable. exact Er.
        -- assert (ts = []) as ->; [|apply Unchanged].
           assert (collection w = Some []) as E; [|congruence].
           apply collection_unreadable. congruence.
    + exists ts. split; [|apply Unchanged].
      rewrite <- H. apply collection_congr; cbn; congruence.
Qed.

(** On a disk that works, an [outcome_world] of a world where loading logs
    nothing has the same console and is again such a world. *)
Lemma outcome_quiet w ts w' :
  outcome_world w ts w' -> loaded w = w ->
  can_read w = true -> can_write w = true ->
  console w' = console w /\ loaded w' = w' /\
  can_read w' = true /\ can_write w' = true.
Proof.
  intros [| |ts' w0 (F & R & W & C) Hch] L Hr Hw.
  - auto.
  - rewrite L. auto.
  - rewrite L in *. rewrite saveTasks_writable by congruence. cbn [snd].
    repeat split; try (cbn; congruence).
    unfold loaded. rewrite loadTasks_set_file by congruence. reflexivity.
Qed.

(** Every HTTP request on a typed store is answered and leaves an
    [outcome_world]. *)
Lemma http_outcome req w ts :
  collection w = Some ts ->
  exists r w', Http.handle req w = (Some r, w') /\ outcome_world w ts w'.
Proof.
  intros H. destruct req as [|given|i|i|i]; cbn [Http.handle].
  - unfold Http.get_tasks, listTasks. rewrite (loadTasks_run _ _ _ H).
    eexists. eexists. split; [reflexivity | apply Read_only].
  - unfold Http.post_tasks. destruct (Http.not_title given).
    + eexists. eexists. split; [reflexivity | apply Untouched].
    + destruct (createTask_outcome w ts given H) as (t & w' & R & _ & _ & O).
      unfold bind. rewrite R. eexists. eexists. split; [reflexivity|exact O].
  - unfold Http.get_task, bind. rewrite (getTask_run w ts H).
    destruct (find (id_is (Some i)) ts); eexists; eexists;
      (split; [reflexivity | apply Read_only]).
  - destruct (completeTask_outcome w ts (Some i) H) as (r & w' & R & O & _).
    unfold Http.patch_complete, bind. rewrite R.
    destruct r; eexists; eexists; (split; [reflexivity | exact O]).
  - destruct (deleteTask_outcome w ts (Some i) H) as (r & w' & R & O & _).
    unfold Http.delete_task, bind. rewrite R.
    destruct r; eexists; eexists; (split; [reflexivity | exact O]).
Qed.

(** Every tool call on a typed store is answered and leaves an
    [outcome_world]. *)
Lemma mcp_outcome req w ts :
  collection w = Some ts ->
  exists r w', Mcp.call_tool req w = (Some r, w') /\ outcome_world w ts w'.
Proof.
  intros H. unfold Mcp.call_tool.
  destruct (Mcp.arguments req) as [args|];
    [|eexists; eexists; split; [reflexivity | apply Untouched]].
  destruct (Mcp.name req =? "create_task").
  { destruct (createTask_outcome w ts (Mcp.arg_title args) H)
      as (t & w' & R & _ & _ & O).
    unfold bind. rewrite R. eexists. eexists. split; [reflexivity|exact O]. }
  destruct (Mcp.name req =? "list_tasks").
  { unfold listTasks. rewrite (loadTasks_run _ _ _ H).
    eexists. eexists. split; [reflexivity | apply Read_only]. }
  destruct (Mcp.name req =? "get_task").
  { unfold bind. rewrite (getTask_run w ts H).
    destruct (find (id_is (Mcp.arg_id args)) ts); eexists; eexists;
      (split; [reflexivity | apply Read_only]). }
  destruct (Mcp.name req =? "complete_task").
  { destruct (completeTask_outcome w ts (Mcp.arg_id args) H) as (r & w' & R & O & _).
    unfold bind. rewrite R.
    destruct r; eexists; eexists; (split; [reflexivity | exact O]). }
  destruct (Mcp.name req =? "delete_task").
  { destruct (deleteTask_outcome w ts (Mcp.arg_id args) H) as (r & w' & R & O & _).
    unfold bind. rewrite R.
    destruct r; eexists; eexists; (split; [reflexivity | exact O]). }
  eexists. eexists. split; [reflexivity | apply Untouched].
Qed.



(** X4.  On a disk that reads and writes, from a world where loading logs
    nothing, every HTTP request and every tool call leaves the console as
    it was, and leaves such a world again. *)
Theorem healthy_store_stays_quiet (w : World) (ts : list Task) :
  collection w = Some ts -> loaded w = w ->
  can_read w = true -> can_write w = true ->
  (forall req, let w' := snd (Http.handle req w) in
     console w' = console w /\ loaded w' = w' /\
     can_read w' = true /\ can_write w' = true) /\
  (forall req, let w' := snd (Mcp.call_tool req w) in
     console w' = console w /\ loaded w' = w' /\
     can_read w' = true /\ can_write w' = true).
Proof.
  intros H L Hr Hw. split; intros req w'.
  - destruct (http_outcome req w ts H) as (r & w1 & R & O).
    unfold w'. rewrite R. cbn [snd]. apply (outcome_quiet w ts); assumption.
  - destruct (mcp_outcome req w ts H) as (r & w1 & R & O).
    unfold w'. rewrite R. cbn [snd]. apply (outcome_quiet w ts); assumption.
Qed.

Lemma healthy_store_stays_quiet_witness :
  (forall req, let w' := snd (Http.handle req fresh_world) in
     console w' = console fresh_world /\ loaded w' = w' /\
     can_read w' = true /\ can_write w' = true) /\
  (forall req, let w' := snd (Mcp.call_tool req fresh_world) in
     console w' = console fresh_world /\ loaded w' = w' /\
     can_read w' = true /\ can_write w' = true).
Proof.
  apply (healthy_store_stays_quiet fresh_world []); reflexivity.
Defined.

End Outcomes.

Section Identifiers.

Lemma to_int_not_nil z :
  Z.to_int z <> Decimal.Pos Decimal.Nil /\ Z.to_int z <> Decimal.Neg Decimal.Nil.
Proof.
  split; intros E; pose proof (DecimalZ.of_to z) as Hz; rewrite E in Hz;
    cbn in Hz; subst z; discriminate.
Qed.

(** Two integers with the same decimal text are equal. *)
Lemma toString_inj a b : JsDate.toString a = JsDate.toString b -> a = b.
Proof.
  unfold JsDate.toString. intros E.
  destruct (to_int_not_nil a) as (Ha1 & Ha2).
  destruct (to_int_not_nil b) as (Hb1 & Hb2).
  pose proof (NilZero.isi _ Ha1 Ha2) as Ia.
  pose proof (NilZero.isi _ Hb1 Hb2) as Ib.
  rewrite E in Ia. rewrite Ia in Ib. injection Ib as Ib.
  apply DecimalZ.to_int_inj. assumption.
Qed.

(** [createTask] on a disk that works: the record and the world. *)
Lemma createTask_healthy w ts given :
  collection w = Some ts -> can_read w = true -> can_write w = true ->
  let t := mkTask (JsDate.toString (clock w (reads w))) given false
                  (JsDate.toISOString (clock w (S (reads w)))) in
  exists w',
    createTask given w = (Some t, w') /\
    collection w' = Some (ts ++ [t])%list /\
    can_read w' = true /\ can_write w' = true /\
    clock w' = clock w /\ reads w' = S (S (reads w)).
Proof.
  intros H Hr Hw t. eexists. split; [apply createTask_run; exact H|].
  destruct (createTask_saved w ts t Hr Hw) as (_ & C).
  split; [exact C|].
  destruct (loaded_frame w) as (_ & R & W & Cl & Rd).
  rewrite saveTasks_writable by (cbn; congruence). cbn. repeat split; congruence.
Qed.

(** X6.  Two tasks created one after the other have the same id exactly
    when the clock gave the same reading at the two calls of [Date.now()]
    (the first and the third reading from the start). *)
Theorem created_ids_follow_clock (w : World) (ts : list Task)
    (g1 g2 : option string) :
  collection w = Some ts -> can_read w = true -> can_write w = true ->
  exists t1 w1 t2 w2,
    createTask g1 w = (Some t1, w1) /\ createTask g2 w1 = (Some t2, w2) /\
    collection w2 = Some (ts ++ [t1; t2])%list /\
    (id t1 = id t2 <-> clock w (reads w) = clock w (S (S (reads w)))).
Proof.
  intros H Hr Hw.
  destruct (createTask_healthy w ts g1 H Hr Hw) as (w1 & R1 & C1 & Hr1 & Hw1 & Cl1 & Rd1).
  destruct (createTask_healthy w1 _ g2 C1 Hr1 Hw1) as (w2 & R2 & C2 & _).
  eexists. exists w1. eexists. exists w2.
  split; [exact R1|]. split; [exact R2|]. split.
  - rewrite C2, <- app_assoc. reflexivity.
  - cbn [id]. rewrite Cl1, Rd1. split; [apply toString_inj | intros ->; reflexivity].
Qed.

Lemma created_ids_follow_clock_witness :
  exists t1 w1 t2 w2,
    createTask (Some "a") fresh_world = (Some t1, w1) /\
    createTask (Some "b") w1 = (Some t2, w2) /\
    collection w2 = Some ([] ++ [t1; t2])%list /\
    (id t1 = id t2 <->
     clock fresh_world (reads fresh_world)
     = clock fresh_world (S (S (reads fresh_world)))).
Proof.
  apply (created_ids_follow_clock fresh_world [] (Some "a") (Some "b"));
    reflexivity.
Defined.

(** X7.  After [createTask] on a disk that works, when no stored record
    already had the new id: [getTask] on that id returns the new record,
    and [deleteTask] on it returns the record and leaves the collection
    that was there before the creation. *)
Theorem create_then_lookup (w : World) (ts : list Task) (g : option string) :
  collection w = Some ts -> can_read w = true -> can_write w = true ->
  (forall x, In x ts -> id x <> JsDate.toString (clock w (reads w))) ->
  exists t w',
    createTask g w = (Some t, w') /\
    fst (getTask (Some (id t)) w') = Some (Some t) /\
    exists w'', deleteTask (Some (id t)) w' = (Some (Some t), w'') /\
                collection w'' = Some ts.
Proof.
  intros H Hr Hw Hfresh.
  destruct (createTask_healthy w ts g H Hr Hw) as (w' & R & C & Hr' & Hw' & _).
  eexists. exists w'. split; [exact R|]. cbn [id].
  assert (Hl1 : forall x, In x ts ->
            id_is (Some (JsDate.toString (clock w (reads w)))) x = false).
  { intros x Hx. apply id_is_false. auto. }
  split.
  - rewrite (getTask_run w' _ C). cbn [fst]. f_equal.
    apply find_first; [apply id_is_true; reflexivity | assumption].
  - destruct (deleteTask_first w' ts _ [] _ C eq_refl Hl1 Hw') as (w'' & D & _ & C').
    exists w''. split; [exact D|]. rewrite C', app_nil_r. reflexivity.
Qed.

Lemma create_then_lookup_witness :
  exists t w',
    createTask (Some "Buy milk") (world_of [bread]) = (Some t, w') /\
    fst (getTask (Some (id t)) w') = Some (Some t) /\
    exists w'', deleteTask (Some (id t)) w' = (Some (Some t), w'') /\
                collection w'' = Some [bread].
Proof.
  apply (create_then_lookup (world_of [bread]) [bread] (Some "Buy milk")).
  - vm_compute. reflexivity.
  - reflexivity.
  - reflexivity.
  - intros x [<-|[]]. vm_compute. discriminate.
Defined.

(** X8.  Two tasks created within one reading of the clock share their id,
    and the second cannot be reached by it: [getTask] returns the first,
    and [deleteTask] removes the first and leaves the second. *)
Theorem same_millisecond_shadow (w : World) (ts : list Task)
    (g1 g2 : option string) :
  collection w = Some ts -> can_read w = true -> can_write w = true ->
  clock w (reads w) = clock w (S (S (reads w))) ->
  (forall x, In x ts -> id x <> JsDate.toString (clock w (reads w))) ->
  exists t1 w1 t2 w2,
    createTask g1 w = (Some t1, w1) /\ createTask g2 w1 = (Some t2, w2) /\
    title t1 = g1 /\ title t2 = g2 /\ id t1 = id t2 /\
    fst (getTask (Some (id t2)) w2) = Some (Some t1) /\
    exists w3, deleteTask (Some (id t2)) w2 = (Some (Some t1), w3) /\
               collection w3 = Some (ts ++ [t2])%list /\
               fst (getTask (Some (id t2)) w3) = Some (Some t2).
Proof.
  intros H Hr Hw Hclock Hfresh.
  destruct (createTask_healthy w ts g1 H Hr Hw)
    as (w1 & R1 & C1 & Hr1 & Hw1 & Cl1 & Rd1).
  destruct (createTask_healthy w1 _ g2 C1 Hr1 Hw1)
    as (w2 & R2 & C2 & Hr2 & Hw2 & _).
  eexists. exists w1. eexists. exists w2.
  split; [exact R1|]. split; [exact R2|].
  cbn [id title]. rewrite Cl1, Rd1, <- Hclock.
  split; [reflexivity|]. split; [reflexivity|]. split; [reflexivity|].
  assert (Hl1 : forall x, In x ts ->
            id_is (Some (JsDate.toString (clock w (reads w)))) x = false).
  { intros x Hx. apply id_is_false. auto. }
  rewrite <- app_assoc in C2. cbn [app] in C2.
  rewrite Cl1, Rd1, <- Hclock in C2.
  split.
  - rewrite (getTask_run w2 _ C2). cbn [fst]. f_equal.
    apply find_first; [apply id_is_true; reflexivity | assumption].
  - destruct (deleteTask_first w2 ts _ _ _ C2 eq_refl Hl1 Hw2) as (w3 & D & _ & C3).
    exists w3. split; [exact D|]. split; [exact C3|].
    rewrite (getTask_run w3 _ C3). cbn [fst]. f_equal.
    apply find_first; [apply id_is_true; reflexivity | assumption].
Qed.

Lemma same_millisecond_shadow_witness :
  exists t1 w1 t2 w2,
    createTask (Some "first") (mkWorld None true true (fun _ => 5%Z) 0 [])
      = (Some t1, w1) /\
    createTask (Some "second") w1 = (Some t2, w2) /\
    title t1 = Some "first" /\ title t2 = Some "second" /\ id t1 = id t2 /\
    fst (getTask (Some (id t2)) w2) = Some (Some t1) /\
    exists w3, deleteTask (Some (id t2)) w2 = (Some (Some t1), w3) /\
               collection w3 = Some ([] ++ [t2])%list /\
               fst (getTask (Some (id t2)) w3) = Some (Some t2).
Proof.
  apply (same_millisecond_shadow (mkWorld None true true (fun _ => 5%Z) 0 []) []
           (Some "first") (Some "second")); try reflexivity.
  intros x [].
Defined.

End Identifiers.

Section Adapters.

(** X9.  On an id that is stored, whether the write succeeds or not, the
    HTTP adapter answers 200 with the first record [t] that has the id: as
    stored for [GET]; for [PATCH] a record with [completed = true] and the
    [id], [title] and [createdAt] of [t]; as removed for [DELETE]. *)
Theorem http_found_mapping (w : World) (l1 l2 : list Task) (t : Task)
    (i : string) :
  collection w = Some (l1 ++ t :: l2)%list -> id t = i ->
  (forall x, In x l1 -> id x <> i) ->
  Http.handle (Http.GET_task i) w
    = (Some (Http.mkResponse 200 (Http.Single t)), loaded w) /\
  (exists t',
     fst (Http.handle (Http.PATCH_complete i) w)
       = Some (Http.mkResponse 200 (Http.Single t')) /\
     completed t' = true /\
     id t' = id t /\ title t' = title t /\ createdAt t' = createdAt t) /\
  fst (Http.handle (Http.DELETE_task i) w)
    = Some (Http.mkResponse 200 (Http.Single t)).
Proof.
  intros H Hid Hl1.
  assert (Hl1' : forall x, In x l1 -> id_is (Some i) x = false).
  { intros x Hx. apply id_is_false. auto. }
  assert (Ht : id_is (Some i) t = true) by (apply id_is_true; assumption).
  cbn [Http.handle]. unfold Http.get_task, Http.patch_complete, Http.delete_task.
  unfold bind. split; [|split].
  - rewrite (getTask_run w _ H), (find_first _ _ _ _ Ht Hl1'). reflexivity.
  - exists (set_completed t).
    rewrite (completeTask_present w _ H (Some i) l1 t l2 eq_refl Ht Hl1').
    repeat split.
  - rewrite (deleteTask_present w _ H (Some i) l1 t l2 eq_refl Ht Hl1').
    reflexivity.
Qed.

Lemma http_found_mapping_witness :
  Http.handle (Http.GET_task "1700000000000") (world_of [bread; milk; milk_again])
    = (Some (Http.mkResponse 200 (Http.Single milk)),
       loaded (world_of [bread; milk; milk_again])) /\
  (exists t',
     fst (Http.handle (Http.PATCH_complete "1700000000000")
            (world_of [bread; milk; milk_again]))
       = Some (Http.mkResponse 200 (Http.Single t')) /\
     completed t' = true /\
     id t' = id milk /\ title t' = title milk /\
     createdAt t' = createdAt milk) /\
  fst (Http.handle (Http.DELETE_task "1700000000000")
         (world_of [bread; milk; milk_again]))
    = Some (Http.mkResponse 200 (Http.Single milk)).
Proof.
  apply (http_found_mapping (world_of [bread; milk; milk_again])
           [bread] [milk_again] milk "1700000000000").
  - vm_compute. reflexivity.
  - reflexivity.
  - intros x [<-|[]]. discriminate.
Defined.

(** What a lookup by id returns on a typed store: the not-found value
    exactly when no stored record has the id. *)
Lemma lookup_found_iff w ts i :
  collection w = Some ts ->
  (exists r w', getTask (Some i) w = (Some r, w') /\
                (r = None <-> forall t, In t ts -> id t <> i)) /\
  (exists r w', completeTask (Some i) w = (Some r, w') /\
                (r = None <-> forall t, In t ts -> id t <> i)) /\
  (exists r w', deleteTask (Some i) w = (Some r, w') /\
                (r = None <-> forall t, In t ts -> id t <> i)).
Proof.
  intros H.
  assert (N : findIndex (id_is (Some i)) ts = None
              <-> forall t, In t ts -> id t <> i).
  { rewrite findIndex_none. split; intros Hn t Ht; apply id_is_false; auto. }
  split; [|split].
  - exists (find (id_is (Some i)) ts), (loaded w).
    split; [apply (getTask_run w ts H)|]. rewrite <- N, findIndex_none. split.
    + apply List.find_none.
    + apply find_absent.
  - destruct (completeTask_outcome w ts (Some i) H) as (r & w' & R & _ & E).
    exists r, w'. split; [exact R|]. rewrite E. exact N.
  - destruct (deleteTask_outcome w ts (Some i) H) as (r & w' & R & _ & E).
    exists r, w'. split; [exact R|]. rewrite E. exact N.
Qed.

(** X10.  On a typed store, the HTTP route and the tool for the same
    operation (lookup by id, completion, deletion) are both answered,
    leave the same world, and fail together: the HTTP status is 404
    exactly when the tool result carries the error flag, which is exactly
    when no stored record has the id; the two listings are both answered
    without failure and leave the same world. *)
Theorem adapters_agree (w : World) (ts : list Task) (i : string) :
  collection w = Some ts ->
  (exists rh rm w',
     Http.handle (Http.GET_task i) w = (Some rh, w') /\
     Mcp.call_tool (id_call "get_task" (Some i)) w = (Some rm, w') /\
     (Http.status rh = 404 <-> Mcp.isError rm = true) /\
     (Mcp.isError rm = true <-> forall t, In t ts -> id t <> i)) /\
  (exists rh rm w',
     Http.handle (Http.PATCH_complete i) w = (Some rh, w') /\
     Mcp.call_tool (id_call "complete_task" (Some i)) w = (Some rm, w') /\
     (Http.status rh = 404 <-> Mcp.isError rm = true) /\
     (Mcp.isError rm = true <-> forall t, In t ts -> id t <> i)) /\
  (exists rh rm w',
     Http.handle (Http.DELETE_task i) w = (Some rh, w') /\
     Mcp.call_tool (id_call "delete_task" (Some i)) w = (Some rm, w') /\
     (Http.status rh = 404 <-> Mcp.isError rm = true) /\
     (Mcp.isError rm = true <-> forall t, In t ts -> id t <> i)) /\
  (exists rh rm w',
     Http.handle Http.GET_tasks w = (Some rh, w') /\
     Mcp.call_tool (id_call "list_tasks" None) w = (Some rm, w') /\
     Http.status rh = 200 /\ Mcp.isError rm = false).
Proof.
  intros H. destruct (lookup_found_iff w ts i H) as (G & C & D).
  unfold Mcp.call_tool, id_call.
  cbn [Http.handle Mcp.arguments Mcp.name Mcp.arg_id].
  unfold Http.get_task, Http.patch_complete, Http.delete_task, Http.get_tasks.
  change ("get_task" =? "create_task") with false.
  change ("get_task" =? "list_tasks") with false.
  change ("get_task" =? "get_task") with true.
  change ("complete_task" =? "create_task") with false.
  change ("complete_task" =? "list_tasks") with false.
  change ("complete_task" =? "get_task") with false.
  change ("complete_task" =? "complete_task") with true.
  change ("delete_task" =? "create_task") with false.
  change ("delete_task" =? "list_tasks") with false.
  change ("delete_task" =? "get_task") with false.
  change ("delete_task" =? "complete_task") with false.
  change ("delete_task" =? "delete_task") with true.
  change ("list_tasks" =? "create_task") with false.
  change ("list_tasks" =? "list_tasks") with true.
  cbv iota. unfold bind.
  split; [|split; [|split]].
  - destruct G as (r & w' & R & E). rewrite R.
    destruct r as [t|]; eexists; eexists; eexists;
      (split; [reflexivity|]); (split; [reflexivity|]); cbn; split.
    + split; discriminate.
    + rewrite <- E. split; discriminate.
    + split; reflexivity.
    + rewrite <- E. split; reflexivity.
  - destruct C as (r & w' & R & E). rewrite R.
    destruct r as [t|]; eexists; eexists; eexists;
      (split; [reflexivity|]); (split; [reflexivity|]); cbn; split.
    + split; discriminate.
    + rewrite <- E. split; discriminate.
    + split; reflexivity.
    + rewrite <- E. split; reflexivity.
  - destruct D as (r & w' & R & E). rewrite R.
    destruct r as [t|]; eexists; eexists; eexists;
      (split; [reflexivity|]); (split; [reflexivity|]); cbn; split.
    + split; discriminate.
    + rewrite <- E. split; discriminate.
    + split; reflexivity.
    + rewrite <- E. split; reflexivity.
  - unfold listTasks. rewrite loadTasks_eq, H.
    eexists. eexists. eexists.
    split; [reflexivity|]. split; [reflexivity|]. split; reflexivity.
Qed.

Lemma adapters_agree_witness :
  (exists rh rm w',
     Http.handle (Http.GET_task "42") (world_of [milk; bread]) = (Some rh, w') /\
     Mcp.call_tool (id_call "get_task" (Some "42")) (world_of [milk; bread])
       = (Some rm, w') /\
     (Http.status rh = 404 <-> Mcp.isError rm = true) /\
     (Mcp.isError rm = true <-> forall t, In t [milk; bread] -> id t <> "42")) /\
  (exists rh rm w',
     Http.handle (Http.PATCH_complete "42") (world_of [milk; bread])
       = (Some rh, w') /\
     Mcp.call_tool (id_call "complete_task" (Some "42")) (world_of [milk; bread])
       = (Some rm, w') /\
     (Http.status rh = 404 <-> Mcp.isError rm = true) /\
     (Mcp.isError rm = true <-> forall t, In t [milk; bread] -> id t <> "42")) /\
  (exists rh rm w',
     Http.handle (Http.DELETE_task "42") (world_of [milk; bread])
       = (Some rh, w') /\
     Mcp.call_tool (id_call "delete_task" (Some "42")) (world_of [milk; bread])
       = (Some rm, w') /\
     (Http.status rh = 404 <-> Mcp.isError rm = true) /\
     (Mcp.isError rm = true <-> forall t, In t [milk; bread] -> id t <> "42")) /\
  (exists rh rm w',
     Http.handle Http.GET_tasks (world_of [milk; bread]) = (Some rh, w') /\
     Mcp.call_tool (id_call "list_tasks" None) (world_of [milk; bread])
       = (Some rm, w') /\
     Http.status rh = 200 /\ Mcp.isError rm = false).
Proof.
  apply (adapters_agree (world_of [milk; bread]) [milk; bread] "42").
  vm_compute. reflexivity.
Defined.

End Adapters.

Section Tools.

Lemma append_empty_r s : s ++ "" = s.
Proof. induction s as [|c s IH]; cbn; congruence. Qed.

(** A value that parses with some budget parses with the budget of
    [parse]. *)
Lemma parse_value_budget f s v r F :
  parse_value f s = Parsed v r -> (2 * String.length s + 1 <= F)%nat ->
  parse_value F s = Parsed v r.
Proof.
  intros H HF. destruct (Nat.le_ge_cases f F) as [Hle|Hge].
  - apply (parse_value_more_fuel f); [assumption|discriminate|assumption].
  - destruct (parse_value F s) eqn:E.
    + rewrite <- H. symmetry.
      apply (parse_value_more_fuel F); [assumption|discriminate|assumption].
    + rewrite <- H. symmetry.
      apply (parse_value_more_fuel F); [assumption|discriminate|assumption].
    + exfalso. apply (proj1 (parse_enough_fuel F) s); assumption.
Qed.

(** [JSON.parse] of the text [JSON.stringify] wrote for one task. *)
Lemma parse_stringify_task t :
  parse (stringify_task t) = Parsed (task_json t) "".
Proof.
  unfold parse.
  assert (S : skip_ws (stringify_task t) = stringify_task t) by reflexivity.
  rewrite S.
  rewrite (parse_value_budget 6 _ (task_json t) "").
  - reflexivity.
  - pose proof (parse_value_task 0 "" t "" eq_refl) as P.
    rewrite append_empty_r in P. exact P.
  - lia.
Qed.

(** X11.  The text the tool [get_task] answers with on a stored id is JSON
    that [JSON.parse] reads back as the first stored record with that
    id. *)
Theorem mcp_get_task_text_parses (w : World) (l1 l2 : list Task) (t : Task)
    (i : string) :
  collection w = Some (l1 ++ t :: l2)%list -> id t = i ->
  (forall x, In x l1 -> id x <> i) ->
  exists text j,
    Mcp.call_tool (id_call "get_task" (Some i)) w
      = (Some (Mcp.mkResult text false), loaded w) /\
    parse text = Parsed j "" /\ asTask j = Some t.
Proof.
  intros H Hid Hl1.
  assert (Hl1' : forall x, In x l1 -> id_is (Some i) x = false).
  { intros x Hx. apply id_is_false. auto. }
  assert (Ht : id_is (Some i) t = true) by (apply id_is_true; assumption).
  exists (stringify_task t), (task_json t). split; [|split].
  - unfold Mcp.call_tool, id_call. cbn [Mcp.arguments Mcp.name Mcp.arg_id].
    change ("get_task" =? "create_task") with false.
    change ("get_task" =? "list_tasks") with false.
    change ("get_task" =? "get_task") with true. cbv iota.
    unfold bind. rewrite (getTask_run w _ H), (find_first _ _ _ _ Ht Hl1').
    reflexivity.
  - apply parse_stringify_task.
  - apply asTask_task_json.
Qed.

Lemma mcp_get_task_text_parses_witness :
  exists text j,
    Mcp.call_tool (id_call "get_task" (Some "1700000000000"))
                  (world_of [bread; milk; milk_again])
      = (Some (Mcp.mkResult text false),
         loaded (world_of [bread; milk; milk_again])) /\
    parse text = Parsed j "" /\ asTask j = Some milk.
Proof.
  apply (mcp_get_task_text_parses (world_of [bread; milk; milk_again])
           [bread] [milk_again] milk "1700000000000").
  - vm_compute. reflexivity.
  - reflexivity.
  - intros x [<-|[]]. discriminate.
Defined.

(** An id that is [undefined] matches no record. *)
Lemma findIndex_undefined ts : findIndex (id_is None) ts = None.
Proof. apply findIndex_none. reflexivity. Qed.

(** X12.  A tool call of [get_task], [complete_task] or [delete_task] whose
    arguments have no [id] finds nothing on any typed store: it answers
    [Task with ID undefined not found] with the error flag and writes
    nothing. *)
Theorem mcp_missing_id_not_found (w : World) (ts : list Task)
    (given : option string) :
  collection w = Some ts ->
  let args := Mcp.mkArgs given None in
  let answer :=
    (Some (Mcp.mkResult "Task with ID undefined not found" true), loaded w) in
  Mcp.call_tool (Mcp.mkRequest "get_task" (Some args)) w = answer /\
  Mcp.call_tool (Mcp.mkRequest "complete_task" (Some args)) w = answer /\
  Mcp.call_tool (Mcp.mkRequest "delete_task" (Some args)) w = answer /\
  file (loaded w) = file w.
Proof.
  intros H args answer. unfold Mcp.call_tool, args, answer.
  cbn [Mcp.arguments Mcp.name Mcp.arg_id]. unfold bind.
  repeat split.
  - change ("get_task" =? "create_task") with false.
    change ("get_task" =? "list_tasks") with false.
    change ("get_task" =? "get_task") with true. cbv beta iota.
    rewrite (getTask_run w ts H).
    rewrite (find_absent (id_is None) ts) by reflexivity. reflexivity.
  - change ("complete_task" =? "create_task") with false.
    change ("complete_task" =? "list_tasks") with false.
    change ("complete_task" =? "get_task") with false.
    change ("complete_task" =? "complete_task") with true. cbv beta iota.
    rewrite (completeTask_absent w ts H None (findIndex_undefined ts)).
    reflexivity.
  - change ("delete_task" =? "create_task") with false.
    change ("delete_task" =? "list_tasks") with false.
    change ("delete_task" =? "get_task") with false.
    change ("delete_task" =? "complete_task") with false.
    change ("delete_task" =? "delete_task") with true. cbv beta iota.
    rewrite (deleteTask_absent w ts H None (findIndex_undefined ts)).
    reflexivity.
  - apply loaded_frame.
Qed.

Lemma mcp_missing_id_not_found_witness :
  let args := Mcp.mkArgs (Some "x") None in
  let answer :=
    (Some (Mcp.mkResult "Task with ID undefined not found" true),
     loaded (world_of [milk; bread])) in
  Mcp.call_tool (Mcp.mkRequest "get_task" (Some args)) (world_of [milk; bread])
    = answer /\
  Mcp.call_tool (Mcp.mkRequest "complete_task" (Some args))
                (world_of [milk; bread]) = answer /\
  Mcp.call_tool (Mcp.mkRequest "delete_task" (Some args))
                (world_of [milk; bread]) = answer /\
  file (loaded (world_of [milk; bread])) = file (world_of [milk; bread]).
Proof.
  apply (mcp_missing_id_not_found (world_of [milk; bread]) [milk; bread]
           (Some "x")).
  vm_compute. reflexivity.
Defined.

(** X13.  The tool [list_tasks] on a typed store answers without the error
    flag and writes nothing; its text is [No tasks found] exactly when the
    store is empty, and otherwise the number of tasks and their JSON. *)
Theorem mcp_list_tasks_text (w : World) (ts : list Task) (args : Mcp.Args) :
  collection w = Some ts ->
  exists text,
    Mcp.call_tool (Mcp.mkRequest "list_tasks" (Some args)) w
      = (Some (Mcp.mkResult text false), loaded w) /\
    (text = "No tasks found" <-> ts = []) /\
    (ts <> [] ->
     text = "Found " ++ JsDate.toString (Z.of_nat (List.length ts)) ++ " tasks:"
            ++ newline ++ stringify_tasks ts).
Proof.
  intros H. unfold Mcp.call_tool. cbn [Mcp.arguments Mcp.name].
  change ("list_tasks" =? "create_task") with false.
  change ("list_tasks" =? "list_tasks") with true. cbv iota.
  unfold listTasks. rewrite (loadTasks_run _ _ _ H).
  eexists. split; [reflexivity|]. destruct ts as [|t ts].
  - split; [split; reflexivity|]. intros E. contradiction.
  - cbn [List.length Nat.ltb Nat.leb]. split; [|reflexivity].
    split; [|discriminate]. intros E. cbn in E. discriminate.
Qed.

Lemma mcp_list_tasks_text_witness :
  exists text,
    Mcp.call_tool (Mcp.mkRequest "list_tasks" (Some (Mcp.mkArgs None None)))
                  (world_of [milk])
      = (Some (Mcp.mkResult text false), loaded (world_of [milk])) /\
    (text = "No tasks found" <-> [milk] = []) /\
    ([milk] <> [] ->
     text = "Found " ++ JsDate.toString (Z.of_nat (List.length [milk]))
            ++ " tasks:" ++ newline ++ stringify_tasks [milk]).
Proof.
  apply (mcp_list_tasks_text (world_of [milk]) [milk] (Mcp.mkArgs None None)).
  vm_compute. reflexivity.
Defined.

End Tools.

Section Dispatch.

(** The names [list_tools] advertises. *)
Lemma listed_names :
  map tool_name list_tools
  = ["create_task"; "list_tasks"; "get_task"; "complete_task"; "delete_task"].
Proof. reflexivity. Qed.

(** A name that is none of the five falls through the [switch]. *)
Lemma call_tool_unlisted name args w :
  ~ In name (map tool_name list_tools) ->
  Mcp.call_tool (Mcp.mkRequest name (Some args)) w
  = (Some (Mcp.mkResult ("Unknown tool: " ++ name) true), w).
Proof.
  rewrite listed_names. intros Hn. unfold Mcp.call_tool.
  cbn [Mcp.arguments Mcp.name].
  repeat match goal with
  | |- context [name =? ?k] =>
    destruct (String.eqb_spec name k) as [->|_];
      [exfalso; apply Hn; cbn; tauto|]
  end.
  reflexivity.
Qed.

(** X14.  With an arguments object, a tool call is answered [Unknown tool]
    exactly for the names [list_tools] does not advertise, and then
    nothing is read or written; without an arguments object every call,
    advertised or not, is answered [No arguments provided], also
    [list_tasks], which declares no argument. *)
Theorem listed_tools_are_handled (w : World) (ts : list Task) (name : string)
    (args : Mcp.Args) :
  collection w = Some ts ->
  (In name (map tool_name list_tools) ->
   exists r w', Mcp.call_tool (Mcp.mkRequest name (Some args)) w = (Some r, w') /\
                Mcp.text r <> "Unknown tool: " ++ name) /\
  (~ In name (map tool_name list_tools) ->
   Mcp.call_tool (Mcp.mkRequest name (Some args)) w
   = (Some (Mcp.mkResult ("Unknown tool: " ++ name) true), w)) /\
  Mcp.call_tool (Mcp.mkRequest name None) w
  = (Some (Mcp.mkResult "No arguments provided" true), w).
Proof.
  intros H. split; [|split; [apply call_tool_unlisted | reflexivity]].
  rewrite listed_names. intros Hin.
  unfold Mcp.call_tool. cbn [Mcp.arguments Mcp.name].
  cbn in Hin. destruct Hin as [<-|[<-|[<-|[<-|[<-|[]]]]]].
  - destruct (createTask_outcome w ts (Mcp.arg_title args) H)
      as (t & w' & R & _).
    change ("create_task" =? "create_task") with true. cbv iota.
    unfold bind. rewrite R. eexists. eexists. split; [reflexivity|].
    cbn. discriminate.
  - change ("list_tasks" =? "create_task") with false.
    change ("list_tasks" =? "list_tasks") with true. cbv iota.
    unfold listTasks. rewrite (loadTasks_run _ _ _ H).
    eexists. eexists. split; [reflexivity|].
    destruct ts; cbn; discriminate.
  - change ("get_task" =? "create_task") with false.
    change ("get_task" =? "list_tasks") with false.
    change ("get_task" =? "get_task") with true. cbv iota.
    unfold bind. rewrite (getTask_run w ts H).
    destruct (find (id_is (Mcp.arg_id args)) ts) as [t|];
      eexists; eexists; (split; [reflexivity|]); cbn; discriminate.
  - destruct (completeTask_outcome w ts (Mcp.arg_id args) H) as (r & w' & R & _).
    change ("complete_task" =? "create_task") with false.
    change ("complete_task" =? "list_tasks") with false.
    change ("complete_task" =? "get_task") with false.
    change ("complete_task" =? "complete_task") with true. cbv iota.
    unfold bind. rewrite R.
    destruct r; eexists; eexists; (split; [reflexivity|]); cbn; discriminate.
  - destruct (deleteTask_outcome w ts (Mcp.arg_id args) H) as (r & w' & R & _).
    change ("delete_task" =? "create_task") with false.
    change ("delete_task" =? "list_tasks") with false.
    change ("delete_task" =? "get_task") with false.
    change ("delete_task" =? "complete_task") with false.
    change ("delete_task" =? "delete_task") with true. cbv iota.
    unfold bind. rewrite R.
    destruct r; eexists; eexists; (split; [reflexivity|]); cbn; discriminate.
Qed.

Lemma listed_tools_are_handled_witness :
  (In "get_task" (map tool_name list_tools) ->
   exists r w',
     Mcp.call_tool (Mcp.mkRequest "get_task" (Some (Mcp.mkArgs None (Some "42"))))
                   (world_of [milk]) = (Some r, w') /\
     Mcp.text r <> "Unknown tool: " ++ "get_task") /\
  (~ In "get_task" (map tool_name list_tools) ->
   Mcp.call_tool (Mcp.mkRequest "get_task" (Some (Mcp.mkArgs None (Some "42"))))
                 (world_of [milk])
   = (Some (Mcp.mkResult ("Unknown tool: " ++ "get_task") true), world_of [milk])) /\
  Mcp.call_tool (Mcp.mkRequest "get_task" None) (world_of [milk])
  = (Some (Mcp.mkResult "No arguments provided" true), world_of [milk]).
Proof.
  apply (listed_tools_are_handled (world_of [milk]) [milk] "get_task"
           (Mcp.mkArgs None (Some "42"))).
  vm_compute. reflexivity.
Defined.

(** X15.  The answer to a call of an advertised tool, and the world it
    leaves, depend on the arguments only through the properties the
    tool's schema lists as [required]: two argument objects that agree on
    those get the same answer in every world. *)
Theorem tool_reads_declared_arguments (tool : Tool) (a a' : Mcp.Args)
    (w : World) :
  In tool list_tools ->
  (forall key, In key (tool_required tool) -> argument a key = argument a' key) ->
  Mcp.call_tool (Mcp.mkRequest (tool_name tool) (Some a)) w
  = Mcp.call_tool (Mcp.mkRequest (tool_name tool) (Some a')) w.
Proof.
  intros Hin Hagree. unfold Mcp.call_tool. cbn [Mcp.arguments Mcp.name].
  cbn in Hin. destruct Hin as [<-|[<-|[<-|[<-|[<-|[]]]]]];
    cbn [tool_name tool_required] in *.
  - assert (E : Mcp.arg_title a = Mcp.arg_title a')
      by (apply (Hagree "title"); left; reflexivity).
    change ("create_task" =? "create_task") with true. cbv iota.
    rewrite E. reflexivity.
  - reflexivity.
  - assert (E : Mcp.arg_id a = Mcp.arg_id a')
      by (apply (Hagree "id"); left; reflexivity).
    change ("get_task" =? "create_task") with false.
    change ("get_task" =? "list_tasks") with false.
    change ("get_task" =? "get_task") with true. cbv iota.
    unfold Mcp.not_found. rewrite E. reflexivity.
  - assert (E : Mcp.arg_id a = Mcp.arg_id a')
      by (apply (Hagree "id"); left; reflexivity).
    change ("complete_task" =? "create_task") with false.
    change ("complete_task" =? "list_tasks") with false.
    change ("complete_task" =? "get_task") with false.
    change ("complete_task" =? "complete_task") with true. cbv iota.
    unfold Mcp.not_found. rewrite E. reflexivity.
  - assert (E : Mcp.arg_id a = Mcp.arg_id a')
      by (apply (Hagree "id"); left; reflexivity).
    change ("delete_task" =? "create_task") with false.
    change ("delete_task" =? "list_tasks") with false.
    change ("delete_task" =? "get_task") with false.
    change ("delete_task" =? "complete_task") with false.
    change ("delete_task" =? "delete_task") with true. cbv iota.
    unfold Mcp.not_found. rewrite E. reflexivity.
Qed.

Lemma tool_reads_declared_arguments_witness :
  Mcp.call_tool
    (Mcp.mkRequest "delete_task" (Some (Mcp.mkArgs (Some "x") (Some "7"))))
    (world_of [milk])
  = Mcp.call_tool
      (Mcp.mkRequest "delete_task" (Some (Mcp.mkArgs None (Some "7"))))
      (world_of [milk]).
Proof.
  apply (tool_reads_declared_arguments
           (mkTool "delete_task" "Delete a task"
              [mkSchemaProperty "id" "string" "The ID of the task to delete"]
              ["id"])
           (Mcp.mkArgs (Some "x") (Some "7")) (Mcp.mkArgs None (Some "7"))
           (world_of [milk])).
  - cbn. tauto.
  - intros key [<-|[]]. reflexivity.
Defined.

(** X16.  Whatever its argument, the program starts at least one server;
    it leaves out the HTTP server only for [--mcp] and the MCP server only
    for [--http], so any other argument, or none, starts both. *)
Theorem start_servers (mode : option string) :
  start mode <> [] /\
  (In HttpServer (start mode) <-> mode <> Some "--mcp") /\
  (In McpServer (start mode) <-> mode <> Some "--http").
Proof.
  unfold start. destruct mode as [m|].
  - destruct (String.eqb_spec m "--http") as [->|Hh].
    + repeat split; try discriminate.
      * cbn. tauto.
      * intros [E|[]]. discriminate.
      * intros E. exfalso. apply E. reflexivity.
    + destruct (String.eqb_spec m "--mcp") as [->|Hm].
      * repeat split; try discriminate.
        -- intros [E|[]]. discriminate.
        -- intros E. exfalso. apply E. reflexivity.
        -- cbn. tauto.
      * repeat split; try discriminate; try (cbn; tauto);
          intros _ E; injection E as E; contradiction.
  - repeat split; try discriminate; cbn; tauto.
Qed.

End Dispatch.

Section Records.

(** What one [change] can do to the records. *)
Lemma change_origin ts ts' :
  change ts ts' ->
  forall t', In t' ts' ->
    (exists t, In t ts /\ id t' = id t /\ title t' = title t /\
               createdAt t' = createdAt t /\
               (completed t = true -> completed t' = true)) \/
    (completed t' = false /\ ts' = (ts ++ [t'])%list).
Proof.
  assert (Same : forall (l : list Task) x, In x l ->
            exists t, In t l /\ id x = id t /\ title x = title t /\
                      createdAt x = createdAt t /\
                      (completed t = true -> completed x = true)).
  { intros l x Hx. exists x. auto. }
  intros [ts0 t Ht|l1 t l2|l1 t l2|ts0] t' Hin.
  - apply in_app_or in Hin. destruct Hin as [Hin|[<-|[]]].
    + left. apply Same. assumption.
    + right. auto.
  - left. apply in_app_or in Hin. destruct Hin as [Hin|[<-|Hin]].
    + destruct (Same l1 t' Hin) as (x & Hx & R). exists x.
      split; [apply in_or_app; left; assumption | exact R].
    + exists t. split; [apply in_or_app; right; left; reflexivity|].
      cbn. auto.
    + destruct (Same l2 t' Hin) as (x & Hx & R). exists x.
      split; [apply in_or_app; right; right; assumption | exact R].
  - left. apply in_app_or in Hin. exists t'.
    split; [|auto]. apply in_or_app. destruct Hin; [left|right; right]; assumption.
  - left. apply Same. assumption.
Qed.

(** X5.  No request edits a stored record beyond setting its flag: after
    any HTTP request or tool call on a typed store, every record of the
    store either is the one new record, not completed and last, or has the
    [id], [title] and [createdAt] of a record stored before, and is
    completed if that one was. *)
Theorem stored_records_keep_their_fields (w : World) (ts : list Task) :
  collection w = Some ts ->
  (forall req ts' t',
     collection (snd (Http.handle req w)) = Some ts' -> In t' ts' ->
     (exists t, In t ts /\ id t' = id t /\ title t' = title t /\
                createdAt t' = createdAt t /\
                (completed t = true -> completed t' = true)) \/
     (completed t' = false /\ ts' = (ts ++ [t'])%list)) /\
  (forall req ts' t',
     collection (snd (Mcp.call_tool req w)) = Some ts' -> In t' ts' ->
     (exists t, In t ts /\ id t' = id t /\ title t' = title t /\
                createdAt t' = createdAt t /\
                (completed t = true -> completed t' = true)) \/
     (completed t' = false /\ ts' = (ts ++ [t'])%list)).
Proof.
  intros H. split; intros req ts' t' C Hin.
  - destruct (http_outcome req w ts H) as (r & w' & R & O).
    rewrite R in C. cbn [snd] in C.
    destruct (outcome_typed w ts w' H O) as (ts'' & C' & Ch).
    assert (ts'' = ts') by congruence. subst ts''.
    apply (change_origin ts ts' Ch). assumption.
  - destruct (mcp_outcome req w ts H) as (r & w' & R & O).
    rewrite R in C. cbn [snd] in C.
    destruct (outcome_typed w ts w' H O) as (ts'' & C' & Ch).
    assert (ts'' = ts') by congruence. subst ts''.
    apply (change_origin ts ts' Ch). assumption.
Qed.

Lemma stored_records_keep_their_fields_witness :
  (forall req ts' t',
     collection (snd (Http.handle req (world_of [milk; bread]))) = Some ts' ->
     In t' ts' ->
     (exists t, In t [milk; bread] /\ id t' = id t /\ title t' = title t /\
                createdAt t' = createdAt t /\
                (completed t = true -> completed t' = true)) \/
     (completed t' = false /\ ts' = ([milk; bread] ++ [t'])%list)) /\
  (forall req ts' t',
     collection (snd (Mcp.call_tool req (world_of [milk; bread]))) = Some ts' ->
     In t' ts' ->
     (exists t, In t [milk; bread] /\ id t' = id t /\ title t' = title t /\
                createdAt t' = createdAt t /\
                (completed t = true -> completed t' = true)) \/
     (completed t' = false /\ ts' = ([milk; bread] ++ [t'])%list)).
Proof.
  apply (stored_records_keep_their_fields (world_of [milk; bread]) [milk; bread]).
  vm_compute. reflexivity.
Defined.

(** X17.  In every world, typed or not, the reading requests ([GET /tasks],
    [GET /tasks/:id], [list_tasks], [get_task]) leave the world [loadTasks]
    leaves: the file, the two disk flags and the number of clock readings
    are those before the request. *)
Theorem reads_never_write (w : World) (i : string) (args : Mcp.Args) :
  snd (Http.handle Http.GET_tasks w) = loaded w /\
  snd (Http.handle (Http.GET_task i) w) = loaded w /\
  snd (Mcp.call_tool (Mcp.mkRequest "list_tasks" (Some args)) w) = loaded w /\
  snd (Mcp.call_tool (Mcp.mkRequest "get_task" (Some args)) w) = loaded w /\
  file (loaded w) = file w /\ can_read (loaded w) = can_read w /\
  can_write (loaded w) = can_write w /\ reads (loaded w) = reads w.
Proof.
  destruct (loaded_frame w) as (F & R & W & _ & Rd).
  unfold Mcp.call_tool. cbn [Http.handle Mcp.arguments Mcp.name].
  change ("list_tasks" =? "create_task") with false.
  change ("list_tasks" =? "list_tasks") with true.
  change ("get_task" =? "create_task") with false.
  change ("get_task" =? "list_tasks") with false.
  change ("get_task" =? "get_task") with true. cbv iota.
  unfold Http.get_tasks, Http.get_task, getTask, listTasks, bind, loaded.
  repeat split; try assumption;
    destruct (loadTasks w) as [[l|] w']; cbn [snd fst];
    try reflexivity;
    unfold ret; cbn;
    match goal with
    | |- context [find ?p ?l] => destruct (find p l); reflexivity
    | _ => reflexivity
    end.
Qed.

End Records.

Section Loss.

(** X18.  When the file exists but cannot be read, or holds text that
    [JSON.parse] refuses, the program takes the store for empty; the next
    [createTask] on a disk that writes then replaces the file by a list
    that holds the new record only, and logs the failed load. *)
Theorem unreadable_store_is_overwritten (w : World) (data : string)
    (given : option string) :
  file w = Some data ->
  can_read w = false \/ parse data = SyntaxError ->
  can_write w = true ->
  collection w = Some [] /\
  exists t w',
    createTask given w = (Some t, w') /\
    file w' = Some (stringify_tasks [t]) /\
    console w' = (console w ++ ["Error loading tasks:"])%list.
Proof.
  intros F Hbad Hw.
  assert (L : loadTasks w = (Some [], console_error "Error loading tasks:" w)).
  { unfold loadTasks. rewrite F. destruct (can_read w).
    - destruct Hbad as [Hbad| ->]; [discriminate|reflexivity].
    - reflexivity. }
  assert (C : collection w = Some []) by (unfold collection; rewrite L; reflexivity).
  split; [exact C|].
  pose proof (createTask_run w [] given C) as Hrun. cbv zeta in Hrun.
  eexists. eexists. split; [exact Hrun|].
  unfold loaded. rewrite L. cbn [snd].
  rewrite saveTasks_writable by (cbn; assumption). cbn. split; reflexivity.
Qed.

Lemma unreadable_store_is_overwritten_witness :
  collection (mkWorld (Some "[{oops") true true sample_clock 0 []) = Some [] /\
  exists t w',
    createTask (Some "Buy milk")
               (mkWorld (Some "[{oops") true true sample_clock 0 [])
      = (Some t, w') /\
    file w' = Some (stringify_tasks [t]) /\
    console w' = ([] ++ ["Error loading tasks:"])%list.
Proof.
  apply (unreadable_store_is_overwritten
           (mkWorld (Some "[{oops") true true sample_clock 0 []) "[{oops"
           (Some "Buy milk")).
  - reflexivity.
  - right. vm_compute. reflexivity.
  - reflexivity.
Defined.

End Loss.
